(** * Tree introspection of the file-format examples

    A shallow embedding of the two recursive walkers of the repository,
    [analizar_estructura_json] (ejemplos/03_json/procesar_json.py) and
    [xml_to_dict] (ejemplos/01_xml/procesar_xml.py), and of the mapping
    built by [json_nested_to_flat], with the properties the specification
    states about them. *)

From Stdlib Require Import List String Ascii ZArith Bool Lia Floats DecimalString.
From Stdlib Require Import Permutation Sorted.
Import ListNotations.
Local Open Scope string_scope.
Local Open Scope Z_scope.

(** ** Python values *)

(** The values the walkers meet.  [json.load] produces the first seven
    kinds; [VObj] stands for an object of any other type (a tuple, a set,
    ...), known to the code only through [type(v).__name__] and [repr(v)].
    A [dict] is an association list in insertion order. *)
Unset Elimination Schemes.
Inductive value : Type :=
| VNone
| VBool (b : bool)
| VInt (z : Z)
| VFloat (f : float)
| VStr (s : string)
| VList (elems : list value)
| VDict (items : list (string * value))
| VObj (tipo : string) (texto : string).
Set Elimination Schemes.

(** Induction with the hypothesis available for every element of a list
    and every value of a dict. *)
Definition value_tree_ind (P : value -> Prop)
  (HNone : P VNone)
  (HBool : forall b, P (VBool b))
  (HInt : forall z, P (VInt z))
  (HFloat : forall f, P (VFloat f))
  (HStr : forall s, P (VStr s))
  (HList : forall elems, Forall P elems -> P (VList elems))
  (HDict : forall items, Forall (fun kv => P (snd kv)) items -> P (VDict items))
  (HObj : forall tipo texto, P (VObj tipo texto)) : forall v, P v :=
  fix go (v : value) : P v :=
    match v with
    | VNone => HNone
    | VBool b => HBool b
    | VInt z => HInt z
    | VFloat f => HFloat f
    | VStr s => HStr s
    | VList elems =>
        HList elems
          ((fix go_list (l : list value) : Forall P l :=
              match l with
              | [] => Forall_nil _
              | x :: l' => Forall_cons x (go x) (go_list l')
              end) elems)
    | VDict items =>
        HDict items
          ((fix go_items (l : list (string * value)) : Forall (fun kv => P (snd kv)) l :=
              match l with
              | [] => Forall_nil _
              | kv :: l' => Forall_cons kv (go (snd kv)) (go_items l')
              end) items)
    | VObj tipo texto => HObj tipo texto
    end.

(** [type(v).__name__] *)
Definition type_name (v : value) : string :=
  match v with
  | VNone => "NoneType"
  | VBool _ => "bool"
  | VInt _ => "int"
  | VFloat _ => "float"
  | VStr _ => "str"
  | VList _ => "list"
  | VDict _ => "dict"
  | VObj tipo _ => tipo
  end.

(** [isinstance(v, (dict, list))] *)
Definition es_contenedor (v : value) : bool :=
  match v with
  | VList _ | VDict _ => true
  | _ => false
  end.


(** [len(v)] of a container. *)
Definition len (v : value) : nat :=
  match v with
  | VList elems => List.length elems
  | VDict items => List.length items
  | _ => 0%nat
  end.

(** Truth value of a [str]: the empty string is false. *)
Definition no_vacia (s : string) : bool :=
  match s with
  | EmptyString => false
  | String _ _ => true
  end.

(** ** The structure walker *)

(** One constructor per [print] of [analizar_estructura_json]; a line keeps
    the pieces the f-string interpolates. *)
Inductive linea : Type :=
| ProfundidadMaxima (prefijo : string)
    (* f"{prefijo}: [profundidad máxima alcanzada]" *)
| Contenedor (nuevo_prefijo tipo : string) (tamano : nat)
    (* f"{nuevo_prefijo}: {tipo} (tamaño={tamaño})" *)
| Hoja (nuevo_prefijo tipo : string) (valor : value)
    (* f"{nuevo_prefijo}: {tipo} = {repr(valor)[:50]}" *)
| PrimerElemento (prefijo tipo : string)
    (* f"{prefijo}[0]: {type(datos[0]).__name__}" *)
| ElementosMas (prefijo : string) (n : nat).
    (* f"{prefijo}[1..{n}]: ... ({n} elementos más)", n = len(datos)-1 *)

(** [f"{prefijo}.{clave}" if prefijo else clave] *)
Definition nuevo_prefijo (prefijo clave : string) : string :=
  if no_vacia prefijo then prefijo ++ "." ++ clave else clave.

(** The walker returns the lines it prints, in order.  The recursion is on
    the value: the calls are on a dict value and on the first element of
    a list.  [max_profundidad] is a Python [int], so it may be negative. *)
Fixpoint analizar_estructura_json (datos : value) (prefijo : string)
    (max_profundidad : Z) {struct datos} : list linea :=
  if max_profundidad =? 0 then [ProfundidadMaxima prefijo]
  else
    match datos with
    | VDict items =>
        flat_map
          (fun '(clave, valor) =>
             let np := nuevo_prefijo prefijo clave in
             let tipo := type_name valor in
             if es_contenedor valor then
               Contenedor np tipo (len valor)
                 :: analizar_estructura_json valor np (max_profundidad - 1)
             else [Hoja np tipo valor])
          items
    | VList (primero :: resto) =>
        (PrimerElemento prefijo (type_name primero)
           :: (if (1 <? len datos)%nat
               then [ElementosMas prefijo (len datos - 1)]
               else [])
           ++ analizar_estructura_json primero (prefijo ++ "[0]") (max_profundidad - 1))%list
    | _ => []
    end.

(** Exceptions: the three a subscript or [max] can raise in
    [json_nested_to_flat], and the two the specification names for the
    walker. *)
Inductive exn : Type :=
| KeyError (clave : string)
| TypeError
| ValueError
| InvalidNodeError
| InvalidArgumentError.

(** How a call ends: it returns after printing [salida], or an exception
    leaves it after [salida] was printed. *)
Inductive resultado : Type :=
| Retorna (salida : list linea)
| Lanza (e : exn) (salida : list linea).

(** [describe(node, maxDepth)] is the call
    [analizar_estructura_json(node, max_profundidad=maxDepth)] with the
    default [prefijo=""].  The function has no [raise], and what it applies
    to its argument ([isinstance], [dict.items], [len], [type], [datos[0]]
    under [len(datos) > 0]) cannot fail, so every call returns. *)
Definition describe (node : value) (maxDepth : Z) : resultado :=
  Retorna (analizar_estructura_json node "" maxDepth).


Definition es_truncada (l : linea) : bool :=
  match l with
  | ProfundidadMaxima _ => true
  | _ => false
  end.

(** No line of the output says that the maximum depth was reached. *)
Definition sin_truncar (salida : list linea) : Prop :=
  forallb (fun l => negb (es_truncada l)) salida = true.

(** The text of a line, given [repr]. *)
Section Render.
Variable repr : value -> string.

Definition str_nat (n : nat) : string := NilEmpty.string_of_uint (Nat.to_uint n).

(** [s[:n]]: the first [n] characters of [s], a character being a byte that
    is not a continuation byte (128 to 191) with the continuation bytes
    after it. *)
Fixpoint primeros (n : nat) (s : string) : string :=
  match s with
  | EmptyString => EmptyString
  | String c s' =>
      let b := nat_of_ascii c in
      if ((128 <=? b) && (b <=? 191))%nat then String c (primeros n s')
      else
        match n with
        | O => EmptyString
        | S n' => String c (primeros n' s')
        end
  end.

Definition render (l : linea) : string :=
  match l with
  | ProfundidadMaxima p => p ++ ": [profundidad máxima alcanzada]"
  | Contenedor np tipo n => np ++ ": " ++ tipo ++ " (tamaño=" ++ str_nat n ++ ")"
  | Hoja np tipo valor => np ++ ": " ++ tipo ++ " = " ++ primeros 50 (repr valor)
  | PrimerElemento p tipo => p ++ "[0]: " ++ tipo
  | ElementosMas p n =>
      p ++ "[1.." ++ str_nat n ++ "]: ... (" ++ str_nat n ++ " elementos más)"
  end.
End Render.

(** ** Measures of a tree *)

(** Depth as the data model measures it: the number of Mapping/Sequence
    boundaries between the root and the deepest node; a scalar alone, or an
    empty container, has depth 0. *)
Fixpoint depth (t : value) : nat :=
  match t with
  | VList elems => list_max (map (fun x => S (depth x)) elems)
  | VDict items => list_max (map (fun kv => S (depth (snd kv))) items)
  | _ => 0%nat
  end.

(** All the nodes of a tree, the root included. *)
Fixpoint nodos (t : value) : nat :=
  S (match t with
     | VList elems => list_sum (map nodos elems)
     | VDict items => list_sum (map (fun kv => nodos (snd kv)) items)
     | _ => 0%nat
     end).

(** The nodes on a walk from the root through the children of mappings and
    the first element of sequences, the root included. *)
Fixpoint alcanzados (t : value) : nat :=
  S (match t with
     | VList (primero :: _) => alcanzados primero
     | VDict items => list_sum (map (fun kv => alcanzados (snd kv)) items)
     | _ => 0%nat
     end).

(** The sequences of more than one element on that walk. *)
Fixpoint resumenes (t : value) : nat :=
  match t with
  | VList (primero :: resto) =>
      ((if (1 <=? List.length resto)%nat then 1 else 0) + resumenes primero)%nat
  | VDict items => list_sum (map (fun kv => resumenes (snd kv)) items)
  | _ => 0%nat
  end.



(** ** XML elements to dictionaries *)

(** What [xml_to_dict] reads of an [xml.etree.ElementTree.Element]:
    [element.tag], [element.attrib], [element.text] ([None] or a string)
    and the child elements, which [len(element)] counts and
    [for child in element] yields in document order. *)
Unset Elimination Schemes.
Inductive Element : Type :=
| mkElement (tag : string) (attrib : list (string * string))
            (text : option string) (hijos : list Element).
Set Elimination Schemes.

Definition tag (e : Element) : string :=
  match e with mkElement t _ _ _ => t end.

Definition hijos (e : Element) : list Element :=
  match e with mkElement _ _ _ h => h end.

(** A Python [str] is the string of its UTF-8 bytes.  [str.strip()] removes
    the leading and trailing whitespace characters: U+0009 to U+000D,
    U+001C to U+0020, U+0085, U+00A0, U+1680, U+2000 to U+200A, U+2028,
    U+2029, U+202F, U+205F and U+3000, here by their encodings of one, two
    and three bytes. *)
Definition isspace1 (c : ascii) : bool :=
  let n := nat_of_ascii c in
  ((9 <=? n) && (n <=? 13) || (28 <=? n) && (n <=? 32))%nat.

Definition isspace2 (c1 c2 : ascii) : bool :=
  let n1 := nat_of_ascii c1 in
  let n2 := nat_of_ascii c2 in
  ((n1 =? 194) && ((n2 =? 133) || (n2 =? 160)))%nat.

Definition isspace3 (c1 c2 c3 : ascii) : bool :=
  let n1 := nat_of_ascii c1 in
  let n2 := nat_of_ascii c2 in
  let n3 := nat_of_ascii c3 in
  ((n1 =? 225) && (n2 =? 154) && (n3 =? 128)
   || (n1 =? 226) && (n2 =? 128)
      && ((128 <=? n3) && (n3 <=? 138) || (n3 =? 168) || (n3 =? 169) || (n3 =? 175))
   || (n1 =? 226) && (n2 =? 129) && (n3 =? 159)
   || (n1 =? 227) && (n2 =? 128) && (n3 =? 128))%nat.

Fixpoint lstrip (s : string) : string :=
  match s with
  | EmptyString => EmptyString
  | String c1 s1 =>
      if isspace1 c1 then lstrip s1
      else
        match s1 with
        | EmptyString => s
        | String c2 s2 =>
            if isspace2 c1 c2 then lstrip s2
            else
              match s2 with
              | EmptyString => s
              | String c3 s3 => if isspace3 c1 c2 c3 then lstrip s3 else s
              end
        end
  end.

(** The same from the end, on the reversed bytes: the bytes of a character
    come last byte first. *)
Fixpoint lstrip_rev (s : list ascii) : list ascii :=
  match s with
  | [] => []
  | c1 :: s1 =>
      if isspace1 c1 then lstrip_rev s1
      else
        match s1 with
        | [] => s
        | c2 :: s2 =>
            if isspace2 c2 c1 then lstrip_rev s2
            else
              match s2 with
              | [] => s
              | c3 :: s3 => if isspace3 c3 c2 c1 then lstrip_rev s3 else s
              end
        end
  end.

Definition rstrip (s : string) : string :=
  string_of_list_ascii (rev (lstrip_rev (rev (list_ascii_of_string s)))).

Definition strip (s : string) : string := rstrip (lstrip s).

(** A Python [dict]: [d[k]] reads the entry of [k]; [d[k] = v] replaces it
    where it stands, or adds it at the end. *)
Definition dict : Type := list (string * value).

Fixpoint dict_get (d : dict) (k : string) : option value :=
  match d with
  | [] => None
  | (k', v) :: d' => if String.eqb k' k then Some v else dict_get d' k
  end.

Fixpoint dict_set (d : dict) (k : string) (v : value) : dict :=
  match d with
  | [] => [(k, v)]
  | (k', v') :: d' =>
      if String.eqb k' k then (k, v) :: d' else (k', v') :: dict_set d' k v
  end.

(** [element.attrib], a dict of strings, as a value. *)
Definition attrib_value (attrib : list (string * string)) : value :=
  VDict (map (fun kv => (fst kv, VStr (snd kv))) attrib).

(** [element.text and element.text.strip()]: the stripped text when it is
    not empty. *)
Definition texto_util (text : option string) : option string :=
  match text with
  | Some t => if no_vacia (strip t) then Some (strip t) else None
  | None => None
  end.

(** The body of the loop over the children (lines 165-172): the policy the
    specification calls coalesceDuplicateKeys. *)
Definition agregar_hijo (result : dict) (child_tag : string) (child_data : value) : dict :=
  match dict_get result child_tag with
  | Some actual =>
      let lista :=
        match actual with
        | VList l => l
        | _ => [actual]
        end in
      dict_set result child_tag (VList (lista ++ [child_data]))
  | None => dict_set result child_tag child_data
  end.

Fixpoint xml_to_dict (element : Element) : value :=
  match element with
  | mkElement _ attrib text hijos =>
      let result : dict := [] in
      let result :=
        match attrib with
        | [] => result
        | _ :: _ => dict_set result "@attributes" (attrib_value attrib)
        end in
      let bucle (result : dict) : dict :=
        fold_left
          (fun result child => agregar_hijo result (tag child) (xml_to_dict child))
          hijos result in
      match texto_util text with
      | Some t =>
          if (List.length hijos =? 0)%nat then VStr t
          else VDict (bucle (dict_set result "#text" (VStr t)))
      | None => VDict (bucle result)
      end
  end.

(** The two stages of [xml_to_dict], named for the statements below: the
    dict after the attributes, and the loop over the children. *)
Definition atributos (attrib : list (string * string)) : dict :=
  match attrib with
  | [] => []
  | _ :: _ => dict_set [] "@attributes" (attrib_value attrib)
  end.

Definition bucle (hijos : list Element) (result : dict) : dict :=
  fold_left
    (fun result child => agregar_hijo result (tag child) (xml_to_dict child))
    hijos result.

(** The two keys [xml_to_dict] makes up.  An XML name starts with neither
    [@] nor [#], so no element of a parsed document has one as its tag. *)
Definition clave_sintetica (k : string) : bool :=
  String.eqb k "@attributes" || String.eqb k "#text".

Definition es_lista (v : value) : bool :=
  match v with
  | VList _ => true
  | _ => false
  end.

(** The entry the policy leaves for a key that came with the values [vs],
    in order. *)
Definition entrada (vs : list value) : option value :=
  match vs with
  | [] => None
  | [v] => Some v
  | _ => Some (VList vs)
  end.

(** The results of the children of [e] whose tag is [k], in document order. *)
Definition valores_de (k : string) (e : Element) : list value :=
  map xml_to_dict (filter (fun c => String.eqb (tag c) k) (hijos e)).

(** ** The mapping of [json_nested_to_flat] *)

(** Computations that may raise. *)
Definition bind {A B : Type} (m : exn + A) (k : A -> exn + B) : exn + B :=
  match m with
  | inl e => inl e
  | inr a => k a
  end.

Notation "x <- m ;; k" := (bind m (fun x => k))
  (at level 61, m at next level, right associativity).

(** [obj[key]] with a string key: a dict gives the entry or [KeyError]; a
    list, a string, a number, a boolean and [None] give [TypeError].  The
    document comes from [json.load], which builds no [VObj]. *)
Definition subscript (obj : value) (key : string) : exn + value :=
  match obj with
  | VDict items =>
      match dict_get items key with
      | Some v => inr v
      | None => inl (KeyError key)
      end
  | _ => inl TypeError
  end.

(** [obj[k1][k2]...] *)
Fixpoint ruta (obj : value) (claves : list string) : exn + value :=
  match claves with
  | [] => inr obj
  | k :: claves' => v <- subscript obj k ;; ruta v claves'
  end.

(** What [for exp in obj] yields: the elements of a list, the keys of a
    dict, the characters of a string (byte by byte here: every item of a
    string fails alike at its first subscript); the other JSON values are
    not iterable. *)
Definition py_iter (obj : value) : exn + list value :=
  match obj with
  | VList elems => inr elems
  | VDict items => inr (map (fun kv => VStr (fst kv)) items)
  | VStr s => inr (map (fun c => VStr (String c EmptyString)) (list_ascii_of_string s))
  | _ => inl TypeError
  end.

Section Aplanado.
(** The operator [>] of Python, which [max] applies to the values. *)
Variable py_gt : value -> value -> exn + bool.

(** [exp['resultados']['accuracy']] *)
Definition accuracy_de (exp : value) : exn + value :=
  ruta exp ["resultados"; "accuracy"].

(** [max] over the generator: each item is computed when [max] asks for
    it and replaces the running maximum when [item > max_item]. *)
Fixpoint max_resto (max_item : value) (resto : list value) : exn + value :=
  match resto with
  | [] => inr max_item
  | exp :: resto' =>
      item <- accuracy_de exp ;;
      mayor <- py_gt item max_item ;;
      max_resto (if mayor : bool then item else max_item) resto'
  end.

Definition mejor_accuracy (datos : value) : exn + value :=
  experimentos <- ruta datos ["investigacion"; "experimentos"] ;;
  exps <- py_iter experimentos ;;
  match exps with
  | [] => inl ValueError
  | exp :: resto => item <- accuracy_de exp ;; max_resto item resto
  end.

(** The dict [datos_planos] of lines 259-275, entry by entry in the order
    the literal evaluates them; [datos] is the document of line 256. *)
Definition datos_planos (datos : value) : exn + dict :=
  inv <- ruta datos ["investigacion"; "investigador_principal"] ;;
  titulo <- ruta datos ["investigacion"; "titulo"] ;;
  investigador_nombre <- subscript inv "nombre" ;;
  investigador_email <- subscript inv "email" ;;
  institucion <- ruta inv ["afiliacion"; "institucion"] ;;
  departamento <- ruta inv ["afiliacion"; "departamento"] ;;
  pais <- ruta inv ["afiliacion"; "pais"] ;;
  num_tweets <- ruta datos ["investigacion"; "dataset"; "tamaño"; "tweets"] ;;
  tamano_mb <- ruta datos ["investigacion"; "dataset"; "tamaño"; "tamano_mb"] ;;
  mejor_modelo <- ruta datos ["investigacion"; "conclusiones"; "mejor_modelo"] ;;
  accuracy <- mejor_accuracy datos ;;
  inr [("titulo", titulo);
       ("investigador_nombre", investigador_nombre);
       ("investigador_email", investigador_email);
       ("institucion", institucion);
       ("departamento", departamento);
       ("pais", pais);
       ("num_tweets", num_tweets);
       ("tamano_mb", tamano_mb);
       ("mejor_modelo", mejor_modelo);
       ("mejor_accuracy", accuracy)].
End Aplanado.


(** Stated from the specification, for comparison with [datos_planos]:
    [flatten] gives one entry per scalar leaf, keyed by the dotted path with
    a bracketed zero-based index for each sequence element. *)
Fixpoint flatten_en (camino : string) (t : value) : list (string * value) :=
  match t with
  | VDict items =>
      flat_map (fun '(k, v) => flatten_en (nuevo_prefijo camino k) v) items
  | VList elems =>
      (fix cada (i : nat) (l : list value) : list (string * value) :=
         match l with
         | [] => []
         | x :: l' =>
             (flatten_en (camino ++ "[" ++ str_nat i ++ "]") x ++ cada (S i) l')%list
         end) 0%nat elems
  | _ => [(camino, t)]
  end.

Definition flatten_spec (t : value) : list (string * value) := flatten_en "" t.



(** Documents for the examples: the scenario of the specification,
    [{"person": {"name": "Ana", "tags": ["x", "y", "z"]}}], and a small
    document with the paths [json_nested_to_flat] reads. *)
Definition persona : value :=
  VDict [("person", VDict [("name", VStr "Ana");
                           ("tags", VList [VStr "x"; VStr "y"; VStr "z"])])].

Definition documento : value :=
  VDict [("investigacion",
          VDict [("titulo", VStr "NLP");
                 ("investigador_principal",
                  VDict [("nombre", VStr "Ana"); ("email", VStr "ana@u.mx");
                         ("afiliacion",
                          VDict [("institucion", VStr "UNAM");
                                 ("departamento", VStr "IIMAS");
                                 ("pais", VStr "MX")])]);
                 ("dataset",
                  VDict [("tamaño", VDict [("tweets", VInt 100); ("tamano_mb", VInt 5)])]);
                 ("experimentos",
                  VList [VDict [("id", VStr "E1");
                                ("resultados", VDict [("accuracy", VInt 81)])];
                         VDict [("id", VStr "E2");
                                ("resultados", VDict [("accuracy", VInt 93)])];
                         VDict [("id", VStr "E3");
                                ("resultados", VDict [("accuracy", VInt 90)])]]);
                 ("conclusiones", VDict [("mejor_modelo", VStr "BERT")])])].

(** [>] between two [int]s, to run [datos_planos] on [documento]. *)
Definition gt_enteros (a b : value) : exn + bool :=
  match a, b with
  | VInt x, VInt y => inr (y <? x)
  | _, _ => inl TypeError
  end.

(** ** Statistics of an XML tree *)

(** Induction on an element with the hypothesis for every child. *)
Definition Element_tree_ind (P : Element -> Prop)
  (HElement : forall etag attrib text hs,
      Forall P hs -> P (mkElement etag attrib text hs)) : forall e, P e :=
  fix go (e : Element) : P e :=
    match e with
    | mkElement etag attrib text hs =>
        HElement etag attrib text hs
          ((fix go_list (l : list Element) : Forall P l :=
              match l with
              | [] => Forall_nil _
              | c :: l' => Forall_cons c (go c) (go_list l')
              end) hs)
    end.

(** [max] over a generator of integers.  The items are computed one at a
    time, so the first one that raises ends the call; no item at all is a
    [ValueError]; an item replaces the running maximum when it is greater. *)
Fixpoint max_desde (max_item : Z) (resto : list (exn + Z)) : exn + Z :=
  match resto with
  | [] => inr max_item
  | r :: resto' =>
      item <- r ;;
      max_desde (if max_item <? item then item else max_item) resto'
  end.

Definition py_max (items : list (exn + Z)) : exn + Z :=
  match items with
  | [] => inl ValueError
  | r :: resto => item <- r ;; max_desde item resto
  end.

(** [max_depth(element, depth=0)] of procesar_xml.py. *)
Fixpoint max_depth (element : Element) (depth : Z) : exn + Z :=
  match element with
  | mkElement _ _ _ hs =>
      if (List.length hs =? 0)%nat then inr depth
      else py_max (map (fun child => max_depth child (depth + 1)) hs)
  end.

(** [element.iter()]: the element, then its descendants in document order;
    [validar_xml_schema] counts them with [len(list(root.iter()))]. *)
Fixpoint iter (element : Element) : list Element :=
  match element with
  | mkElement _ _ _ hs => element :: flat_map iter hs
  end.

(** The height of an element: the number of edges on the longest chain of
    children below it. *)
Fixpoint altura (e : Element) : nat :=
  match e with
  | mkElement _ _ _ hs => list_max (map (fun c => S (altura c)) hs)
  end.

(** ** The shape of what [xml_to_dict] returns *)

(** The keys of a dict, in insertion order. *)
Definition claves (d : dict) : list string := map fst d.

(** The strings of [l] that are not in [vistos], each once, in the order of
    their first occurrence. *)
Fixpoint nuevas (vistos l : list string) : list string :=
  match l with
  | [] => []
  | x :: l' =>
      if existsb (String.eqb x) vistos then nuevas vistos l'
      else x :: nuevas (x :: vistos) l'
  end.

(** The keys [xml_to_dict] sets before the loop over the children. *)
Definition claves_iniciales (e : Element) : list string :=
  match e with
  | mkElement _ attrib text _ =>
      (match attrib with [] => [] | _ :: _ => ["@attributes"] end
       ++ match texto_util text with Some _ => ["#text"] | None => [] end)%list
  end.

(** Strings, dicts and lists only; every list has two elements or more,
    none of them a list. *)
Fixpoint forma_xml (v : value) : bool :=
  match v with
  | VStr _ => true
  | VDict items => forallb (fun kv => forma_xml (snd kv)) items
  | VList elems =>
      (2 <=? List.length elems)%nat
      && forallb (fun x => negb (es_lista x) && forma_xml x) elems
  | _ => false
  end.

(** A value within the bound [B] as an entry of a dict under construction:
    a list may still grow sideways only, anything else may still be wrapped
    in a list. *)
Definition cabe (B : nat) (v : value) : Prop :=
  if es_lista v then (S (depth v) <= B)%nat else (2 + depth v <= B)%nat.

(** ** Loading JSON Lines and extracting the metrics *)

Section JsonLines.
(** [json.loads], which returns the value a line holds or raises. *)
Variable json_loads : string -> exn + value.

(** The loop of [cargar_jsonl] over the lines the file yields, [datos]
    being the list built so far. *)
Fixpoint cargar_desde (datos : list value) (lineas : list string) : exn + list value :=
  match lineas with
  | [] => inr datos
  | linea :: resto =>
      if no_vacia (strip linea) then
        dato <- json_loads linea ;;
        cargar_desde (datos ++ [dato]) resto
      else cargar_desde datos resto
  end.

Definition cargar_jsonl (lineas : list string) : exn + list value :=
  cargar_desde [] lineas.
End JsonLines.

(** The lines [cargar_jsonl] does not ignore. *)
Definition con_contenido (lineas : list string) : list string :=
  filter (fun linea => no_vacia (strip linea)) lineas.


(** The dict [fila] of one experiment, entry by entry in the order the
    literal evaluates them. *)
Definition fila_de (exp : value) : exn + dict :=
  id <- subscript exp "id" ;;
  fecha <- subscript exp "fecha" ;;
  modelo <- ruta exp ["modelo"; "nombre"] ;;
  arquitectura <- ruta exp ["modelo"; "arquitectura"] ;;
  parametros <- ruta exp ["modelo"; "parametros"] ;;
  batch_size <- ruta exp ["hiperparametros"; "batch_size"] ;;
  learning_rate <- ruta exp ["hiperparametros"; "learning_rate"] ;;
  epochs <- ruta exp ["hiperparametros"; "epochs"] ;;
  accuracy <- ruta exp ["resultados"; "accuracy"] ;;
  precision <- ruta exp ["resultados"; "precision"] ;;
  recall <- ruta exp ["resultados"; "recall"] ;;
  f1_score <- ruta exp ["resultados"; "f1_score"] ;;
  tiempo_entrenamiento_seg <- ruta exp ["resultados"; "tiempo_entrenamiento_seg"] ;;
  tiempo_inferencia_ms <- ruta exp ["resultados"; "tiempo_inferencia_ms"] ;;
  inr [("id", id); ("fecha", fecha); ("modelo", modelo);
       ("arquitectura", arquitectura); ("parametros", parametros);
       ("batch_size", batch_size); ("learning_rate", learning_rate);
       ("epochs", epochs); ("accuracy", accuracy); ("precision", precision);
       ("recall", recall); ("f1_score", f1_score);
       ("tiempo_entrenamiento_seg", tiempo_entrenamiento_seg);
       ("tiempo_inferencia_ms", tiempo_inferencia_ms)].

(** The loop over the experiments, [filas] being the rows built so far. *)
Fixpoint filas_desde (filas : list dict) (exps : list value) : exn + list dict :=
  match exps with
  | [] => inr filas
  | exp :: resto => fila <- fila_de exp ;; filas_desde (filas ++ [fila]) resto
  end.

(** The rows [extraer_metricas_experimentos] hands to [pd.DataFrame]. *)
Definition extraer_metricas_experimentos (datos : value) : exn + list dict :=
  experimentos <- ruta datos ["investigacion"; "experimentos"] ;;
  exps <- py_iter experimentos ;;
  filas_desde [] exps.

(** [x] is the accuracy of one of the experiments [exps]. *)
Definition es_accuracy (exps : list value) (x : value) : Prop :=
  exists exp, In exp exps /\ accuracy_de exp = inr x.

(** The items [for exp in datos['investigacion']['experimentos']] yields. *)
Definition experimentos_de (datos : value) : exn + list value :=
  experimentos <- ruta datos ["investigacion"; "experimentos"] ;;
  py_iter experimentos.

(** [>] between integers as a test, for the examples. *)
Definition mayor_entero (a b : value) : bool :=
  match a, b with
  | VInt x, VInt y => y <? x
  | _, _ => false
  end.

(** ** The statistics of [analizar_grafo_json] *)

Section Grafo.
(** The test a dict applies to find a key: the same object, or an equal one
    with the same hash. *)
Variable clave_eq : value -> value -> bool.

(** [d[k] += 1] on a [defaultdict(int)]: the entry of an equal key grows,
    a new key enters at the end with 1. *)
Fixpoint incrementar (d : list (value * nat)) (k : value) : list (value * nat) :=
  match d with
  | [] => [(k, 1%nat)]
  | (k', n) :: d' =>
      if clave_eq k' k then (k', S n) :: d' else (k', n) :: incrementar d' k
  end.

(** The loop [for nodo in ...: por_tipo[nodo['tipo']] += 1].  A list or a
    dict as a key is the [TypeError] of an unhashable type. *)
Fixpoint contar_tipos (por_tipo : list (value * nat)) (items : list value)
  : exn + list (value * nat) :=
  match items with
  | [] => inr por_tipo
  | item :: resto =>
      tipo <- subscript item "tipo" ;;
      if es_contenedor tipo then inl TypeError
      else contar_tipos (incrementar por_tipo tipo) resto
  end.

(** [nodos_por_tipo] and [aristas_por_tipo], lines 161-164 and 170-173. *)
Definition nodos_por_tipo (grafo : value) : exn + list (value * nat) :=
  nodos <- subscript grafo "nodos" ;;
  items <- py_iter nodos ;;
  contar_tipos [] items.

Definition aristas_por_tipo (grafo : value) : exn + list (value * nat) :=
  aristas <- subscript grafo "aristas" ;;
  items <- py_iter aristas ;;
  contar_tipos [] items.

(** [d[k].append(par)] on a [defaultdict(list)]. *)
Fixpoint anotar (d : list (value * list (value * value))) (k : value)
    (par : value * value) : list (value * list (value * value)) :=
  match d with
  | [] => [(k, [par])]
  | (k', l) :: d' =>
      if clave_eq k' k then (k', (l ++ [par])%list) :: d'
      else (k', l) :: anotar d' k par
  end.

(** [arista['tipo'] == 'COLABORA_CON'] *)
Definition es_colabora (tipo : value) : bool :=
  match tipo with
  | VStr s => String.eqb s "COLABORA_CON"
  | _ => false
  end.

(** The loop of lines 180-187. *)
Fixpoint colaborar (colaboraciones : list (value * list (value * value)))
    (aristas : list value) : exn + list (value * list (value * value)) :=
  match aristas with
  | [] => inr colaboraciones
  | arista :: resto =>
      tipo <- subscript arista "tipo" ;;
      if es_colabora tipo then
        fuente <- subscript arista "fuente" ;;
        destino <- subscript arista "destino" ;;
        fuerza <- ruta arista ["propiedades"; "fuerza_colaboracion"] ;;
        if es_contenedor fuente then inl TypeError
        else if es_contenedor destino then inl TypeError
        else
          colaborar
            (anotar (anotar colaboraciones fuente (destino, fuerza))
                    destino (fuente, fuerza))
            resto
      else colaborar colaboraciones resto
  end.

Definition colaboraciones_de (grafo : value)
  : exn + list (value * list (value * value)) :=
  aristas <- subscript grafo "aristas" ;;
  items <- py_iter aristas ;;
  colaborar [] items.
End Grafo.

(** [sorted(items, key=num, reverse=True)].  A stable sort has one possible
    result, which inserting the items one by one, each after the items
    whose key is not smaller, produces. *)
Fixpoint insertar_desc {A : Type} (num : A -> nat) (x : A) (l : list A) : list A :=
  match l with
  | [] => [x]
  | y :: l' =>
      if (num y <? num x)%nat then x :: y :: l' else y :: insertar_desc num x l'
  end.

Definition sorted_desc {A : Type} (num : A -> nat) (l : list A) : list A :=
  fold_left (fun ordenados x => insertar_desc num x ordenados) l [].

(** [len(x[1])], the key of the sort. *)
Definition num_colaboraciones (x : value * list (value * value)) : nat :=
  List.length (snd x).

(** [sorted(colaboraciones.items(), key=..., reverse=True)[:3]] *)
Definition top_colaboradores (colaboraciones : list (value * list (value * value)))
  : list (value * list (value * value)) :=
  firstn 3 (sorted_desc num_colaboraciones colaboraciones).


(** The key test between strings, for the examples. *)
Definition clave_str (a b : value) : bool :=
  match a, b with
  | VStr x, VStr y => String.eqb x y
  | _, _ => false
  end.

(** A graph for the examples. *)
Definition arista_ejemplo (tipo fuente destino : string) : value :=
  VDict [("tipo", VStr tipo); ("fuente", VStr fuente); ("destino", VStr destino);
         ("propiedades", VDict [("fuerza_colaboracion", VInt 1)])].

Definition grafo_ejemplo : value :=
  VDict [("nodos", VList [VDict [("id", VStr "i1"); ("tipo", VStr "Investigador")];
                          VDict [("id", VStr "i2"); ("tipo", VStr "Investigador")];
                          VDict [("id", VStr "p1"); ("tipo", VStr "Paper")]]);
         ("aristas", VList [arista_ejemplo "COLABORA_CON" "i1" "i2";
                            arista_ejemplo "AUTOR_DE" "i1" "p1";
                            arista_ejemplo "COLABORA_CON" "i1" "i3"])].

(** The items [for x in grafo[clave]] yields. *)
Definition lista_de (grafo : value) (clave : string) : exn + list value :=
  lista <- subscript grafo clave ;;
  py_iter lista.

(** From the most collaborations to the fewest. *)
Definition descendente (l : list (value * list (value * value))) : Prop :=
  StronglySorted (fun a b => (num_colaboraciones b <= num_colaboraciones a)%nat) l.

(** ** The ontology of [analizar_ontologia] *)

(** [element.attrib] and [element.text]. *)
Definition attrib (e : Element) : list (string * string) :=
  match e with mkElement _ a _ _ => a end.

Definition text (e : Element) : option string :=
  match e with mkElement _ _ t _ => t end.

(** [element.get(key)]: the attribute, or [None]. *)
Fixpoint get_de (a : list (string * string)) (key : string) : option string :=
  match a with
  | [] => None
  | (k, v) :: a' => if String.eqb k key then Some v else get_de a' key
  end.

Definition get (e : Element) (key : string) : option string :=
  get_de (attrib e) key.

(** [element.find(tag)] with a plain tag: the first child with that tag, or
    [None]. *)
Definition find (e : Element) (t : string) : option Element :=
  List.find (fun c => String.eqb (tag c) t) (hijos e).

(** [element.findall('.//' + tag)]: the elements with that tag below the
    element, itself left out, in document order. *)
Definition findall_descendientes (e : Element) (t : string) : list Element :=
  filter (fun c => String.eqb (tag c) t) (flat_map iter (hijos e)).

(** A dict whose keys are strings or [None], as the class names are. *)
Definition misma_clave (a b : option string) : bool :=
  match a, b with
  | Some x, Some y => String.eqb x y
  | None, None => true
  | _, _ => false
  end.

Fixpoint poner {V : Type} (d : list (option string * V)) (k : option string) (v : V)
  : list (option string * V) :=
  match d with
  | [] => [(k, v)]
  | (k', v') :: d' =>
      if misma_clave k' k then (k, v) :: d' else (k', v') :: poner d' k v
  end.

Fixpoint buscar {V : Type} (d : list (option string * V)) (k : option string)
  : option V :=
  match d with
  | [] => None
  | (k', v) :: d' => if misma_clave k' k then Some v else buscar d' k
  end.

(** An entry of [analisis['relaciones']]. *)
Record relacion : Type := mkRelacion {
  source : option string;
  rel_type : option string;
  target : option string;
  probability : string
}.

(** The dict [analisis]; an entry of [jerarquia] is the pair of ['id'] and
    ['parent']. *)
Record analisis : Type := mkAnalisis {
  total_classes : nat;
  jerarquia : list (option string * (option string * option string));
  relaciones : list relacion;
  propiedades_por_clase : list (option string * nat)
}.

(** [rel.get('probability', 'N/A')] *)
Definition get_o (e : Element) (key defecto : string) : string :=
  match get e key with
  | Some v => v
  | None => defecto
  end.

(** One turn of the loop over the classes.  [None] is the [AttributeError]
    of [.text] on the [None] that [find] returns when the child is missing. *)
Definition paso_clase (a : analisis) (clase : Element) : option analisis :=
  let class_id := get clase "id" in
  match find clase "name" with
  | None => None
  | Some nombre =>
      let class_name := text nombre in
      match find clase "parent" with
      | None => None
      | Some padre =>
          let parent := text padre in
          let properties := findall_descendientes clase "property" in
          let relations := findall_descendientes clase "relation" in
          Some {| total_classes := total_classes a;
                  jerarquia := poner (jerarquia a) class_name (class_id, parent);
                  relaciones :=
                    (relaciones a
                     ++ map (fun rel =>
                               {| source := class_name;
                                  rel_type := get rel "type";
                                  target := get rel "target";
                                  probability := get_o rel "probability" "N/A" |})
                            relations)%list;
                  propiedades_por_clase :=
                    poner (propiedades_por_clase a) class_name
                          (List.length properties) |}
      end
  end.

Fixpoint recorrer_clases (a : analisis) (clases : list Element) : option analisis :=
  match clases with
  | [] => Some a
  | clase :: resto =>
      match paso_clase a clase with
      | Some a' => recorrer_clases a' resto
      | None => None
      end
  end.

(** [analizar_ontologia], from the root the parser returned. *)
Definition analizar_ontologia (root : Element) : option analisis :=
  let clases := findall_descendientes root "class" in
  recorrer_clases
    {| total_classes := List.length clases; jerarquia := [];
       relaciones := []; propiedades_por_clase := [] |}
    clases.

(** The name of a class that has one: the text of its first child [name]. *)
Definition class_name_de (clase : Element) : option (option string) :=
  option_map text (find clase "name").

(** A class with the two children the loop reads. *)
Definition clase_completa (clase : Element) : bool :=
  match find clase "name", find clase "parent" with
  | Some _, Some _ => true
  | _, _ => false
  end.

(** An ontology for the examples: two classes with the same name. *)
Definition clase_ejemplo (id nombre padre : string) (dentro : list Element) : Element :=
  mkElement "class" [("id", id)] None
    (mkElement "name" [] (Some nombre) []
     :: mkElement "parent" [] (Some padre) [] :: dentro).

Definition ontologia_ejemplo : Element :=
  mkElement "ontology" [] None
    [clase_ejemplo "C1" "Enfermedad" "Thing"
       [mkElement "property" [] (Some "cie10") [];
        mkElement "relation" [("type", "causa"); ("target", "Sintoma")] None []];
     clase_ejemplo "C2" "Sintoma" "Thing" [];
     clase_ejemplo "C3" "Enfermedad" "Proceso" []].

(** * Properties *)

(** ** Running the walker *)

Example describe_ejemplo :
  describe (VDict [("a", VDict [("b", VInt 1); ("c", VList [VInt 1; VInt 2])]);
                   ("d", VStr "x")]) 5
  = Retorna [Contenedor "a" "dict" 2; Hoja "a.b" "int" (VInt 1);
             Contenedor "a.c" "list" 2; PrimerElemento "a.c" "int";
             ElementosMas "a.c" 1; Hoja "d" "str" (VStr "x")].
Proof. reflexivity. Qed.

Example describe_profundidad_1 :
  describe (VDict [("a", VDict [("b", VInt 1)]); ("d", VStr "x")]) 1
  = Retorna [Contenedor "a" "dict" 1; ProfundidadMaxima "a"; Hoja "d" "str" (VStr "x")].
Proof. reflexivity. Qed.

Example render_ejemplo :
  map (render (fun _ => "'x'"))
      [Contenedor "a.c" "list" 12; ElementosMas "a.c" 11; Hoja "d" "str" (VStr "x")]
  = ["a.c: list (tamaño=12)"; "a.c[1..11]: ... (11 elementos más)"; "d: str = 'x'"].
Proof. reflexivity. Qed.

(** The unfolding equations of the walker. *)

Lemma analizar_cero (datos : value) (prefijo : string) :
  analizar_estructura_json datos prefijo 0 = [ProfundidadMaxima prefijo].
Proof. destruct datos; reflexivity. Qed.

Lemma analizar_otro (datos : value) (prefijo : string) (n : Z) :
  n <> 0 -> es_contenedor datos = false ->
  analizar_estructura_json datos prefijo n = [].
Proof.
  intros Hn Hc. apply Z.eqb_neq in Hn.
  destruct datos; simpl in *; rewrite Hn; try reflexivity; discriminate.
Qed.

Lemma analizar_lista_vacia (prefijo : string) (n : Z) :
  n <> 0 -> analizar_estructura_json (VList []) prefijo n = [].
Proof. intros Hn. apply Z.eqb_neq in Hn. simpl. now rewrite Hn. Qed.

Lemma analizar_lista (primero : value) (resto : list value) (prefijo : string) (n : Z) :
  n <> 0 ->
  analizar_estructura_json (VList (primero :: resto)) prefijo n
  = (PrimerElemento prefijo (type_name primero)
     :: (if (1 <=? List.length resto)%nat
         then [ElementosMas prefijo (List.length resto)] else [])
     ++ analizar_estructura_json primero (prefijo ++ "[0]") (n - 1))%list.
Proof.
  intros Hn. apply Z.eqb_neq in Hn. cbn [analizar_estructura_json]. rewrite Hn.
  cbn [len List.length]. rewrite Nat.sub_1_r. cbn [Nat.pred].
  destruct resto; reflexivity.
Qed.

Lemma analizar_dict_vacio (prefijo : string) (n : Z) :
  n <> 0 -> analizar_estructura_json (VDict []) prefijo n = [].
Proof. intros Hn. apply Z.eqb_neq in Hn. simpl. now rewrite Hn. Qed.

Lemma analizar_dict (clave : string) (valor : value) (items : list (string * value))
    (prefijo : string) (n : Z) :
  n <> 0 ->
  analizar_estructura_json (VDict ((clave, valor) :: items)) prefijo n
  = ((if es_contenedor valor
      then Contenedor (nuevo_prefijo prefijo clave) (type_name valor) (len valor)
             :: analizar_estructura_json valor (nuevo_prefijo prefijo clave) (n - 1)
      else [Hoja (nuevo_prefijo prefijo clave) (type_name valor) valor])
     ++ analizar_estructura_json (VDict items) prefijo n)%list.
Proof.
  intros Hn. apply Z.eqb_neq in Hn. cbn [analizar_estructura_json flat_map].
  now rewrite Hn.
Qed.

Lemma sin_truncar_app (a b : list linea) :
  sin_truncar a -> sin_truncar b -> sin_truncar (a ++ b).
Proof. unfold sin_truncar. intros Ha Hb. now rewrite forallb_app, Ha, Hb. Qed.

(** ** Depth and the walk *)

Lemma depth_lista (primero : value) (resto : list value) :
  depth (VList (primero :: resto))
  = Nat.max (S (depth primero)) (depth (VList resto)).
Proof. reflexivity. Qed.

Lemma depth_dict (clave : string) (valor : value) (items : list (string * value)) :
  depth (VDict ((clave, valor) :: items))
  = Nat.max (S (depth valor)) (depth (VDict items)).
Proof. reflexivity. Qed.

Lemma alcanzados_dict (clave : string) (valor : value) (items : list (string * value)) :
  alcanzados (VDict ((clave, valor) :: items))
  = (alcanzados valor + alcanzados (VDict items))%nat.
Proof. simpl. lia. Qed.

Lemma resumenes_dict (clave : string) (valor : value) (items : list (string * value)) :
  resumenes (VDict ((clave, valor) :: items))
  = (resumenes valor + resumenes (VDict items))%nat.
Proof. reflexivity. Qed.


Lemma hoja_medidas (v : value) :
  es_contenedor v = false -> alcanzados v = 1%nat /\ resumenes v = 0%nat.
Proof. destruct v; simpl; intros; try discriminate; auto. Qed.

(** Above the depth of the tree the limit is never met, and every node on
    the walk but the root has its line, every long sequence its summary. *)
Lemma recorrido_completo (t : value) :
  forall (prefijo : string) (n : Z),
    Z.of_nat (depth t) < n ->
    sin_truncar (analizar_estructura_json t prefijo n)
    /\ (List.length (analizar_estructura_json t prefijo n) + 1
        = alcanzados t + resumenes t)%nat.
Proof.
  induction t as [| b | z | f | s | elems IH | items IH | tipo texto]
    using value_tree_ind; intros prefijo n Hd;
    try (rewrite analizar_otro; [split; reflexivity | simpl in Hd; lia | reflexivity]).
  - destruct elems as [| primero resto].
    + rewrite analizar_lista_vacia by (simpl in Hd; lia). split; reflexivity.
    + rewrite depth_lista in Hd. inversion IH as [| ? ? IHp _]; subst.
      destruct (IHp (prefijo ++ "[0]") (n - 1)) as [Ht Hl]; [lia |].
      rewrite analizar_lista by lia. split.
      * apply (sin_truncar_app [_]); [reflexivity |].
        apply sin_truncar_app; [destruct (1 <=? _)%nat; reflexivity | exact Ht].
      * cbn [alcanzados resumenes List.length]. rewrite length_app.
        destruct (1 <=? List.length resto)%nat; cbn [List.length]; lia.
  - induction items as [| [clave valor] items IHitems].
    + rewrite analizar_dict_vacio by (simpl in Hd; lia). split; reflexivity.
    + rewrite depth_dict in Hd. inversion IH as [| ? ? IHv IHresto]; subst.
      simpl in IHv. destruct (IHitems IHresto) as [Ht Hl]; [lia |].
      rewrite analizar_dict by lia.
      rewrite alcanzados_dict, resumenes_dict, length_app.
      destruct (es_contenedor valor) eqn:Hc.
      * destruct (IHv (nuevo_prefijo prefijo clave) (n - 1)) as [Htv Hlv]; [lia |].
        split.
        -- apply sin_truncar_app; [| exact Ht].
           apply (sin_truncar_app [_]); [reflexivity | exact Htv].
        -- cbn [List.length]. lia.
      * destruct (hoja_medidas valor Hc) as [Ha Hr]. rewrite Ha, Hr. split.
        -- apply sin_truncar_app; [reflexivity | exact Ht].
        -- cbn [List.length]. lia.
Qed.



(** ** The walker and the depth limit *)










(** C7: for every root, in particular every Mapping or Sequence,
    describe(root, 0) returns exactly one line, the one that states that
    the maximum depth was reached; nothing of the root is descended. *)
Theorem describe_depth_zero (root : value) :
  describe root 0 = Retorna [ProfundidadMaxima ""].
Proof. unfold describe. now rewrite analizar_cero. Qed.

(** C10: for every root that is neither a Mapping nor a Sequence and every
    maxDepth > 0, describe produces no line and returns normally. *)
Theorem describe_scalar_root (node : value) (maxDepth : Z) :
  es_contenedor node = false -> 0 < maxDepth ->
  describe node maxDepth = Retorna [].
Proof.
  intros Hc Hn. unfold describe. rewrite analizar_otro; [reflexivity | lia | exact Hc].
Qed.

Lemma describe_scalar_root_witness :
  es_contenedor (VStr "hola") = false /\ 0 < 3
  /\ describe (VStr "hola") 3 = Retorna [].
Proof.
  split; [reflexivity |]. split; [lia |].
  apply (describe_scalar_root (VStr "hola") 3); [reflexivity | lia].
Defined.

(** C6: when a Sequence is visited with a limit above 0, a line names its
    first element, one line "n more elements" stands for the other n = len-1
    elements when there are any, and only the first element is descended:
    the output does not depend on what the other elements are.  The lines
    of a Mapping are those of its first entry followed by those of the rest,
    so the children are visited in insertion order. *)
Theorem describe_sequence_and_mapping_order (prefijo : string) (n : Z) :
  0 < n ->
  (forall primero resto,
      analizar_estructura_json (VList (primero :: resto)) prefijo n
      = (PrimerElemento prefijo (type_name primero)
         :: (if (1 <=? List.length resto)%nat
             then [ElementosMas prefijo (List.length resto)] else [])
         ++ analizar_estructura_json primero (prefijo ++ "[0]") (n - 1))%list)
  /\ (forall primero resto resto',
         List.length resto = List.length resto' ->
         analizar_estructura_json (VList (primero :: resto)) prefijo n
         = analizar_estructura_json (VList (primero :: resto')) prefijo n)
  /\ (forall clave valor items,
         analizar_estructura_json (VDict ((clave, valor) :: items)) prefijo n
         = ((if es_contenedor valor
             then Contenedor (nuevo_prefijo prefijo clave) (type_name valor) (len valor)
                    :: analizar_estructura_json valor (nuevo_prefijo prefijo clave) (n - 1)
             else [Hoja (nuevo_prefijo prefijo clave) (type_name valor) valor])
            ++ analizar_estructura_json (VDict items) prefijo n)%list).
Proof.
  intros Hn. split; [| split].
  - intros. apply analizar_lista. lia.
  - intros primero resto resto' Hl. rewrite !analizar_lista by lia. now rewrite Hl.
  - intros. apply analizar_dict. lia.
Qed.

Lemma describe_sequence_and_mapping_order_witness :
  0 < 2
  /\ analizar_estructura_json
       (VList [VDict [("id", VInt 1)]; VDict [("id", VInt 2)]; VStr "z"]) "xs" 2
     = analizar_estructura_json
         (VList [VDict [("id", VInt 1)]; VNone; VList [VInt 5; VInt 6]]) "xs" 2.
Proof.
  split; [lia |].
  destruct (describe_sequence_and_mapping_order "xs" 2) as (_ & Hresto & _); [lia |].
  apply Hresto. reflexivity.
Defined.

(** ** XML elements *)

Example xml_tres_valores :
  xml_to_dict
    (mkElement "r" [] (Some (String "010" "  ")%string)
       [mkElement "v" [] (Some "10") []; mkElement "v" [] (Some "20") [];
        mkElement "v" [] (Some "30") []])
  = VDict [("v", VList [VStr "10"; VStr "20"; VStr "30"])].
Proof. reflexivity. Qed.

Example xml_mixto :
  xml_to_dict
    (mkElement "p" [("id", "7")] (Some " hola ")
       [mkElement "b" [] (Some "x") []; mkElement "i" [("k", "v")] None [];
        mkElement "b" [] None [mkElement "c" [] (Some "y") []]])
  = VDict [("@attributes", VDict [("id", VStr "7")]); ("#text", VStr "hola");
           ("b", VList [VStr "x"; VDict [("c", VStr "y")]]);
           ("i", VDict [("@attributes", VDict [("k", VStr "v")])])].
Proof. reflexivity. Qed.

Lemma xml_to_dict_eq (etag : string) (attrib : list (string * string))
    (text : option string) (hs : list Element) :
  xml_to_dict (mkElement etag attrib text hs)
  = match texto_util text with
    | Some t =>
        if (List.length hs =? 0)%nat then VStr t
        else VDict (bucle hs (dict_set (atributos attrib) "#text" (VStr t)))
    | None => VDict (bucle hs (atributos attrib))
    end.
Proof. destruct attrib; reflexivity. Qed.

Lemma xml_to_dict_no_lista (e : Element) : es_lista (xml_to_dict e) = false.
Proof.
  destruct e as [etag attrib text hs]. rewrite xml_to_dict_eq.
  destruct (texto_util text); [destruct (List.length hs =? 0)%nat |]; reflexivity.
Qed.

Lemma texto_util_some (t : string) :
  strip t <> "" -> texto_util (Some t) = Some (strip t).
Proof. unfold texto_util. destruct (strip t); [congruence | reflexivity]. Qed.


(** Reading and writing a dict. *)

Lemma dict_get_set_eq (d : dict) (k : string) (v : value) :
  dict_get (dict_set d k v) k = Some v.
Proof.
  induction d as [| [k' v'] d IH]; simpl.
  - now rewrite String.eqb_refl.
  - destruct (String.eqb k' k) eqn:E; simpl.
    + now rewrite String.eqb_refl.
    + now rewrite E.
Qed.

Lemma dict_get_set_neq (d : dict) (k k' : string) (v : value) :
  k' <> k -> dict_get (dict_set d k' v) k = dict_get d k.
Proof.
  intros Hk. apply String.eqb_neq in Hk.
  induction d as [| [k0 v0] d IH]; simpl.
  - now rewrite Hk.
  - destruct (String.eqb k0 k') eqn:E; simpl.
    + apply String.eqb_eq in E. subst k0. now rewrite Hk.
    + now rewrite IH.
Qed.

(** One step of the loop, seen from a key. *)

Lemma agregar_otro (result : dict) (t k : string) (v : value) :
  t <> k -> dict_get (agregar_hijo result t v) k = dict_get result k.
Proof.
  intros Hk. unfold agregar_hijo.
  destruct (dict_get result t); now rewrite dict_get_set_neq.
Qed.

Lemma agregar_mismo (result : dict) (k : string) (v : value) (previos : list value) :
  Forall (fun x => es_lista x = false) previos ->
  dict_get result k = entrada previos ->
  dict_get (agregar_hijo result k v) k = entrada (previos ++ [v]).
Proof.
  intros Hp Hg. unfold agregar_hijo. rewrite Hg.
  destruct previos as [| a [| b l]]; simpl; rewrite dict_get_set_eq.
  - reflexivity.
  - inversion Hp as [| ? ? Ha _]; subst. destruct a; try discriminate; reflexivity.
  - destruct (l ++ [v])%list eqn:E; [destruct l; discriminate | reflexivity].
Qed.



(** The loop, seen from a key. *)

Lemma bucle_cons (c : Element) (hs : list Element) (result : dict) :
  bucle (c :: hs) result = bucle hs (agregar_hijo result (tag c) (xml_to_dict c)).
Proof. reflexivity. Qed.

Lemma bucle_entrada (k : string) (hs : list Element) :
  forall (result : dict) (previos : list value),
    Forall (fun x => es_lista x = false) previos ->
    dict_get result k = entrada previos ->
    dict_get (bucle hs result) k
    = entrada (previos ++ map xml_to_dict (filter (fun c => String.eqb (tag c) k) hs)).
Proof.
  induction hs as [| c hs IH]; intros result previos Hp Hg.
  - simpl. now rewrite app_nil_r.
  - rewrite bucle_cons. cbn [filter]. destruct (String.eqb (tag c) k) eqn:E.
    + apply String.eqb_eq in E. rewrite E. cbn [map].
      change (xml_to_dict c :: map xml_to_dict (filter (fun c0 => String.eqb (tag c0) k) hs))
        with ([xml_to_dict c] ++ map xml_to_dict (filter (fun c0 => String.eqb (tag c0) k) hs))%list.
      rewrite app_assoc. apply IH.
      * apply Forall_app. split; [exact Hp |].
        constructor; [apply xml_to_dict_no_lista | constructor].
      * now apply agregar_mismo.
    + apply String.eqb_neq in E. apply IH; [exact Hp |]. now rewrite agregar_otro.
Qed.




Lemma atributos_sin_clave (attrib : list (string * string)) (k : string) :
  clave_sintetica k = false -> dict_get (atributos attrib) k = None.
Proof.
  unfold clave_sintetica. intros Hk. apply orb_false_elim in Hk as [Ha _].
  destruct attrib; [reflexivity |].
  unfold atributos, dict_set, dict_get. rewrite String.eqb_sym, Ha. reflexivity.
Qed.

Lemma valores_no_lista (k : string) (e : Element) :
  Forall (fun v => es_lista v = false) (valores_de k e).
Proof.
  unfold valores_de. apply Forall_forall. intros v Hin.
  apply in_map_iff in Hin as (c & <- & _). apply xml_to_dict_no_lista.
Qed.

Lemma con_hijos (k : string) (e : Element) :
  (1 <= List.length (valores_de k e))%nat -> (List.length (hijos e) =? 0)%nat = false.
Proof.
  unfold valores_de. intros Hn. apply Nat.eqb_neq. intros Hl.
  apply length_zero_iff_nil in Hl. rewrite Hl in Hn. simpl in Hn. lia.
Qed.

(** The entry of a key that is not synthetic, after [xml_to_dict]. *)
Lemma xml_to_dict_entrada (e : Element) (k : string) :
  clave_sintetica k = false ->
  (1 <= List.length (valores_de k e))%nat ->
  exists items,
    xml_to_dict e = VDict items /\ dict_get items k = entrada (valores_de k e).
Proof.
  intros Hk Hn. pose proof (con_hijos k e Hn) as Hh.
  destruct e as [etag attrib text hs]. cbn [hijos] in Hh.
  rewrite xml_to_dict_eq, Hh. unfold valores_de. cbn [hijos].
  destruct (texto_util text) as [t |]; eexists; (split; [reflexivity |]).
  - apply (bucle_entrada k hs _ []); [constructor |].
    rewrite dict_get_set_neq; [now apply atributos_sin_clave |].
    intros <-. unfold clave_sintetica in Hk. simpl in Hk. discriminate.
  - apply (bucle_entrada k hs _ []); [constructor |]. now apply atributos_sin_clave.
Qed.

(** C2: when the children of an element bring a key n >= 2 times with the
    values v1..vn, the mapping holds for it the flat list [v1, ..., vn] in
    document order; a key brought once holds its value, which is never a
    list; so the entry is a Sequence exactly when the key came more than
    once, whatever the values are (text or mapping) and in whatever order.
    The key is a tag, so it is not one of the two synthetic keys. *)
Theorem coalesce_duplicate_keys (e : Element) (k : string) :
  clave_sintetica k = false ->
  (1 <= List.length (valores_de k e))%nat ->
  exists items valor,
    xml_to_dict e = VDict items
    /\ dict_get items k = Some valor
    /\ es_lista valor = (2 <=? List.length (valores_de k e))%nat
    /\ ((2 <= List.length (valores_de k e))%nat -> valor = VList (valores_de k e))
    /\ (List.length (valores_de k e) = 1%nat -> valores_de k e = [valor]).
Proof.
  intros Hk Hn. destruct (xml_to_dict_entrada e k Hk Hn) as (items & He & Hg).
  pose proof (valores_no_lista k e) as Hf.
  destruct (valores_de k e) as [| v1 [| v2 vs]]; simpl in Hn, Hg.
  - lia.
  - exists items, v1. inversion Hf as [| ? ? Hv _]; subst.
    repeat split; auto. simpl. lia.
  - exists items, (VList (v1 :: v2 :: vs)).
    repeat split; auto. simpl. lia.
Qed.

Lemma coalesce_duplicate_keys_witness :
  clave_sintetica "v" = false
  /\ (1 <= List.length
            (valores_de "v"
               (mkElement "r" [] None
                  [mkElement "v" [] (Some "10") []; mkElement "v" [] (Some "20") [];
                   mkElement "v" [] (Some "30") []])))%nat
  /\ exists items,
      xml_to_dict
        (mkElement "r" [] None
           [mkElement "v" [] (Some "10") []; mkElement "v" [] (Some "20") [];
            mkElement "v" [] (Some "30") []]) = VDict items
      /\ dict_get items "v" = Some (VList [VStr "10"; VStr "20"; VStr "30"]).
Proof.
  split; [reflexivity |]. split; [simpl; lia |].
  destruct (coalesce_duplicate_keys
              (mkElement "r" [] None
                 [mkElement "v" [] (Some "10") []; mkElement "v" [] (Some "20") [];
                  mkElement "v" [] (Some "30") []]) "v")
    as (items & valor & He & Hg & _ & Hl & _); [reflexivity | simpl; lia |].
  exists items. split; [exact He |]. rewrite Hg, Hl; [reflexivity | simpl; lia].
Defined.



(** C9: an element with text that is not blank and no children gives the
    stripped text itself, not a mapping; its attributes, when it has any, do
    not appear in the result. *)
Theorem text_only_element (etag : string) (attrib : list (string * string))
    (t : string) :
  strip t <> "" ->
  xml_to_dict (mkElement etag attrib (Some t) []) = VStr (strip t).
Proof. intros Ht. now rewrite xml_to_dict_eq, (texto_util_some t Ht). Qed.

Lemma text_only_element_witness :
  strip " 42 " <> ""
  /\ xml_to_dict (mkElement "edad" [("unidad", "años")] (Some " 42 ") []) = VStr "42".
Proof.
  assert (Ht : strip " 42 " <> "") by (vm_compute; discriminate).
  split; [exact Ht |].
  apply (text_only_element "edad" [("unidad", "años")] " 42 " Ht).
Defined.

(** ** The mapping of json_nested_to_flat *)

Example datos_planos_documento :
  datos_planos gt_enteros documento
  = inr [("titulo", VStr "NLP"); ("investigador_nombre", VStr "Ana");
         ("investigador_email", VStr "ana@u.mx"); ("institucion", VStr "UNAM");
         ("departamento", VStr "IIMAS"); ("pais", VStr "MX");
         ("num_tweets", VInt 100); ("tamano_mb", VInt 5);
         ("mejor_modelo", VStr "BERT"); ("mejor_accuracy", VInt 93)].
Proof. reflexivity. Qed.

Example flatten_spec_persona :
  flatten_spec persona
  = [("person.name", VStr "Ana"); ("person.tags[0]", VStr "x");
     ("person.tags[1]", VStr "y"); ("person.tags[2]", VStr "z")].
Proof. reflexivity. Qed.











(** ** The depth of an XML tree *)

Example max_depth_ejemplo :
  max_depth
    (mkElement "a" [] None
       [mkElement "b" [] None [mkElement "c" [] None []; mkElement "d" [] None []];
        mkElement "e" [] None []]) 0
  = inr 2.
Proof. reflexivity. Qed.

Lemma max_desde_inr (zs : list Z) :
  forall m, max_desde m (map inr zs) = inr (fold_left Z.max zs m).
Proof.
  induction zs as [| z zs IH]; intros m; [reflexivity |].
  cbn [map max_desde bind fold_left]. rewrite IH. f_equal. f_equal.
  destruct (Z.ltb_spec m z); lia.
Qed.

Lemma fold_max_desplazado (d : Z) (ns : list nat) :
  forall m : nat,
    fold_left Z.max (map (fun n => d + Z.of_nat n) ns) (d + Z.of_nat m)
    = d + Z.of_nat (Nat.max m (list_max ns)).
Proof.
  induction ns as [| n ns IH]; intros m.
  - simpl. now rewrite Nat.max_0_r.
  - cbn [map fold_left].
    replace (Z.max (d + Z.of_nat m) (d + Z.of_nat n)) with (d + Z.of_nat (Nat.max m n)) by lia.
    rewrite IH. change (list_max (n :: ns)) with (Nat.max n (list_max ns)).
    now rewrite Nat.max_assoc.
Qed.

(** [max_depth] adds the height of the element to [depth]. *)
Lemma max_depth_es_altura (e : Element) :
  forall depth, max_depth e depth = inr (depth + Z.of_nat (altura e)).
Proof.
  induction e as [etag attrib text hs IH] using Element_tree_ind. intros depth.
  destruct hs as [| c cs].
  - simpl. f_equal. lia.
  - cbn [max_depth List.length Nat.eqb].
    assert (Hmap : map (fun child => max_depth child (depth + 1)) (c :: cs)
                   = map inr (map (fun n => depth + Z.of_nat n)
                                  (map (fun x => S (altura x)) (c :: cs)))).
    { rewrite !map_map. apply map_ext_Forall.
      eapply Forall_impl; [| exact IH]. intros x Hx. cbn beta. rewrite Hx.
      f_equal. lia. }
    rewrite Hmap. cbn [map py_max bind]. rewrite max_desde_inr.
    rewrite fold_max_desplazado. reflexivity.
Qed.

Lemma altura_menor (e : Element) : (altura e < List.length (iter e))%nat.
Proof.
  induction e as [etag attrib text hs IH] using Element_tree_ind.
  cbn [altura iter List.length]. apply Nat.lt_succ_r.
  induction hs as [| c cs IHcs]; [simpl; lia |].
  inversion IH as [| ? ? Hc Hcs]; subst. specialize (IHcs Hcs).
  cbn [map flat_map]. rewrite length_app.
  change (list_max (S (altura c) :: map (fun c0 => S (altura c0)) cs))
    with (Nat.max (S (altura c)) (list_max (map (fun c0 => S (altura c0)) cs))).
  lia.
Qed.


(** X2: of the two statistics [validar_xml_schema] prints, the depth is
    never negative and always less than the number of elements. *)
Theorem depth_below_element_count (root : Element) :
  exists profundidad,
    max_depth root 0 = inr profundidad
    /\ 0 <= profundidad < Z.of_nat (List.length (iter root)).
Proof.
  exists (Z.of_nat (altura root)). split; [apply max_depth_es_altura |].
  pose proof (altura_menor root). lia.
Qed.

(** ** Keys and shape of the dictionaries *)

Lemma existsb_eqb_In (x : string) (l : list string) :
  existsb (String.eqb x) l = true <-> In x l.
Proof.
  rewrite existsb_exists. split.
  - intros (y & Hin & Heq). apply String.eqb_eq in Heq. now subst.
  - intros Hin. exists x. split; [exact Hin | apply String.eqb_refl].
Qed.

Lemma dict_get_claves (d : dict) (k : string) :
  dict_get d k <> None <-> In k (claves d).
Proof.
  induction d as [| [k' v] d IH]; simpl; [tauto |].
  destruct (String.eqb_spec k' k) as [-> | Hne].
  - split; [now left | discriminate].
  - rewrite IH. split; [now right | intros [? | ?]; [contradiction | assumption]].
Qed.

Lemma claves_set (d : dict) (k : string) (v : value) :
  claves (dict_set d k v)
  = if existsb (String.eqb k) (claves d) then claves d else (claves d ++ [k])%list.
Proof.
  induction d as [| [k' v'] d IH]; [reflexivity |].
  cbn [dict_set claves map fst existsb]. rewrite (String.eqb_sym k k').
  destruct (String.eqb_spec k' k) as [-> | Hne]; [reflexivity |].
  cbn [map fst orb]. fold (claves (dict_set d k v)). rewrite IH. fold (claves d).
  now destruct (existsb (String.eqb k) (claves d)).
Qed.

Lemma claves_agregar (result : dict) (t : string) (v : value) :
  claves (agregar_hijo result t v)
  = if existsb (String.eqb t) (claves result) then claves result
    else (claves result ++ [t])%list.
Proof. unfold agregar_hijo. destruct (dict_get result t); apply claves_set. Qed.

Lemma nuevas_ext (l : list string) :
  forall v1 v2,
    (forall x, In x v1 <-> In x v2) -> nuevas v1 l = nuevas v2 l.
Proof.
  induction l as [| x l IH]; intros v1 v2 Hv; [reflexivity |]. cbn [nuevas].
  assert (He : existsb (String.eqb x) v1 = existsb (String.eqb x) v2).
  { apply eq_true_iff_eq. rewrite !existsb_eqb_In. apply Hv. }
  rewrite He. destruct (existsb (String.eqb x) v2).
  - now apply IH.
  - f_equal. apply IH. intros y. simpl. now rewrite Hv.
Qed.

Lemma claves_bucle (hs : list Element) :
  forall result,
    claves (bucle hs result)
    = (claves result ++ nuevas (claves result) (map tag hs))%list.
Proof.
  induction hs as [| c hs IH]; intros result.
  - simpl. now rewrite app_nil_r.
  - rewrite bucle_cons, IH, claves_agregar. cbn [map nuevas].
    destruct (existsb (String.eqb (tag c)) (claves result)); [reflexivity |].
    rewrite <- app_assoc. cbn [app]. f_equal. f_equal.
    apply nuevas_ext. intros x. rewrite in_app_iff. simpl. tauto.
Qed.

Lemma nuevas_NoDup (l : list string) :
  forall vistos, NoDup vistos -> NoDup (vistos ++ nuevas vistos l).
Proof.
  induction l as [| x l IH]; intros vistos Hv.
  - simpl. now rewrite app_nil_r.
  - cbn [nuevas]. destruct (existsb (String.eqb x) vistos) eqn:E; [now apply IH |].
    assert (Hx : ~ In x vistos).
    { intros Hin. apply existsb_eqb_In in Hin. congruence. }
    specialize (IH (x :: vistos) (NoDup_cons x Hx Hv)). cbn [app] in IH.
    apply (NoDup_Add (Add_app x vistos (nuevas (x :: vistos) l))).
    inversion IH; subst. now split.
Qed.

Lemma claves_atributos (attrib : list (string * string)) :
  claves (atributos attrib)
  = match attrib with [] => [] | _ :: _ => ["@attributes"] end.
Proof. destruct attrib; reflexivity. Qed.

Lemma claves_con_texto (attrib : list (string * string)) (v : value) :
  claves (dict_set (atributos attrib) "#text" v)
  = (claves (atributos attrib) ++ ["#text"])%list.
Proof. rewrite claves_set, claves_atributos. destruct attrib; reflexivity. Qed.

(** X3: when [xml_to_dict] returns a dict, its keys are, in this order,
    ["@attributes"] if the element has attributes, ["#text"] if it has text
    that is not blank, and then the tag of each child once, in the order in
    which the tags first occur; no key is repeated. *)
Theorem xml_to_dict_keys (e : Element) (items : dict) :
  xml_to_dict e = VDict items ->
  claves items
  = (claves_iniciales e ++ nuevas (claves_iniciales e) (map tag (hijos e)))%list
  /\ NoDup (claves items).
Proof.
  intros He.
  assert (Hk : claves items
               = (claves_iniciales e
                  ++ nuevas (claves_iniciales e) (map tag (hijos e)))%list).
  { destruct e as [etag attrib text hs]. rewrite xml_to_dict_eq in He.
    cbn [claves_iniciales hijos].
    destruct (texto_util text) as [t |].
    - destruct (List.length hs =? 0)%nat; [discriminate |].
      injection He as <-. now rewrite claves_bucle, claves_con_texto, claves_atributos.
    - injection He as <-. rewrite claves_bucle, claves_atributos.
      now rewrite app_nil_r. }
  split; [exact Hk |]. rewrite Hk. apply nuevas_NoDup.
  destruct e as [etag attrib text hs]. cbn [claves_iniciales].
  destruct attrib, (texto_util text); repeat constructor; simpl; intuition discriminate.
Qed.

Lemma xml_to_dict_keys_witness :
  xml_to_dict
    (mkElement "p" [("id", "7")] (Some " hola ")
       [mkElement "b" [] (Some "x") []; mkElement "i" [("k", "v")] None [];
        mkElement "b" [] None [mkElement "c" [] (Some "y") []]])
  = VDict [("@attributes", VDict [("id", VStr "7")]); ("#text", VStr "hola");
           ("b", VList [VStr "x"; VDict [("c", VStr "y")]]);
           ("i", VDict [("@attributes", VDict [("k", VStr "v")])])]
  /\ NoDup ["@attributes"; "#text"; "b"; "i"].
Proof.
  split; [reflexivity |].
  exact (proj2 (xml_to_dict_keys
                  (mkElement "p" [("id", "7")] (Some " hola ")
                     [mkElement "b" [] (Some "x") []; mkElement "i" [("k", "v")] None [];
                      mkElement "b" [] None [mkElement "c" [] (Some "y") []]])
                  _ eq_refl)).
Defined.

(** The values of a dict that all satisfy a test. *)

Lemma forallb_dict_get (f : value -> bool) (d : dict) (k : string) (v : value) :
  forallb (fun kv => f (snd kv)) d = true -> dict_get d k = Some v -> f v = true.
Proof.
  induction d as [| [k' v'] d IH]; simpl; [discriminate |].
  intros Hf Hg. apply andb_prop in Hf as [Hv Hd].
  destruct (String.eqb k' k); [now injection Hg as <- | now apply IH].
Qed.

Lemma forallb_dict_set (f : value -> bool) (d : dict) (k : string) (v : value) :
  forallb (fun kv => f (snd kv)) d = true -> f v = true ->
  forallb (fun kv => f (snd kv)) (dict_set d k v) = true.
Proof.
  intros Hf Hv. induction d as [| [k' v'] d IH]; simpl.
  - now rewrite Hv.
  - simpl in Hf. apply andb_prop in Hf as [Hv' Hd].
    destruct (String.eqb k' k); simpl.
    + now rewrite Hv, Hd.
    + now rewrite Hv', IH.
Qed.

Lemma forma_agregar (result : dict) (t : string) (child_data : value) :
  forallb (fun kv => forma_xml (snd kv)) result = true ->
  forma_xml child_data = true -> es_lista child_data = false ->
  forallb (fun kv => forma_xml (snd kv)) (agregar_hijo result t child_data) = true.
Proof.
  intros Hr Hc Hl. unfold agregar_hijo.
  destruct (dict_get result t) as [actual |] eqn:Hg;
    [| now apply forallb_dict_set].
  pose proof (forallb_dict_get forma_xml result t actual Hr Hg) as Ha.
  apply forallb_dict_set; [exact Hr |].
  destruct actual; try discriminate Ha; cbn [forma_xml].
  - simpl. now rewrite Hl, Hc.
  - cbn [forma_xml] in Ha. apply andb_prop in Ha as [Hn Hf].
    rewrite length_app, forallb_app, Hf. cbn [List.length forallb].
    rewrite Hl, Hc. cbn [negb andb]. rewrite andb_true_r.
    apply Nat.leb_le. apply Nat.leb_le in Hn. lia.
  - simpl. cbn [forma_xml] in Ha. now rewrite Ha, Hl, Hc.
Qed.

Lemma forma_bucle (hs : list Element) :
  Forall (fun c => forma_xml (xml_to_dict c) = true) hs ->
  forall result,
    forallb (fun kv => forma_xml (snd kv)) result = true ->
    forallb (fun kv => forma_xml (snd kv)) (bucle hs result) = true.
Proof.
  induction 1 as [| c hs Hc Hhs IH]; intros result Hr; [exact Hr |].
  rewrite bucle_cons. apply IH.
  apply forma_agregar; [exact Hr | exact Hc | apply xml_to_dict_no_lista].
Qed.

Lemma forma_atributos (attrib : list (string * string)) :
  forallb (fun kv => forma_xml (snd kv)) (atributos attrib) = true.
Proof.
  destruct attrib as [| a attrib]; [reflexivity |].
  cbn [atributos dict_set forallb snd attrib_value forma_xml]. rewrite andb_true_r.
  generalize (a :: attrib). intros l. induction l as [| x l IH]; [reflexivity |].
  simpl. exact IH.
Qed.

(** X4: whatever the element, what [xml_to_dict] returns is made of strings,
    dicts and lists only (no number, boolean or [None]: the text is never
    parsed); every list in it has two elements or more, and no list is an
    element of a list. *)
Theorem xml_to_dict_shape (e : Element) : forma_xml (xml_to_dict e) = true.
Proof.
  induction e as [etag attrib text hs IH] using Element_tree_ind.
  rewrite xml_to_dict_eq. destruct (texto_util text) as [t |].
  - destruct (List.length hs =? 0)%nat; [reflexivity |].
    cbn [forma_xml]. apply forma_bucle; [exact IH |].
    apply forallb_dict_set; [apply forma_atributos | reflexivity].
  - cbn [forma_xml]. apply forma_bucle; [exact IH | apply forma_atributos].
Qed.

(** ** Depth of the dictionaries *)

Lemma depth_dict_cota (B : nat) (d : dict) :
  Forall (fun kv => (S (depth (snd kv)) <= B)%nat) d -> (depth (VDict d) <= B)%nat.
Proof.
  intros Hf. cbn [depth]. apply list_max_le. now apply Forall_map.
Qed.

Lemma depth_lista_app (l : list value) (x : value) :
  depth (VList (l ++ [x])) = Nat.max (depth (VList l)) (S (depth x)).
Proof.
  cbn [depth]. rewrite map_app, list_max_app. cbn [map list_max fold_right].
  now rewrite Nat.max_0_r.
Qed.

Lemma depth_lista_uno (x : value) : depth (VList [x]) = S (depth x).
Proof. cbn [depth map list_max fold_right]. now rewrite Nat.max_0_r. Qed.

Lemma cabe_get (B : nat) (d : dict) (k : string) (v : value) :
  Forall (fun kv => cabe B (snd kv)) d -> dict_get d k = Some v -> cabe B v.
Proof.
  induction 1 as [| [k' v'] d Hv Hd IH]; simpl; [discriminate |].
  destruct (String.eqb k' k); [now intros [= <-] | exact IH].
Qed.

Lemma cabe_set (B : nat) (d : dict) (k : string) (v : value) :
  Forall (fun kv => cabe B (snd kv)) d -> cabe B v ->
  Forall (fun kv => cabe B (snd kv)) (dict_set d k v).
Proof.
  intros Hd Hv. induction Hd as [| [k' v'] d Hv' Hd IH]; simpl.
  - now constructor.
  - destruct (String.eqb k' k); constructor; assumption.
Qed.

Lemma cabe_agregar (B : nat) (result : dict) (t : string) (child_data : value) :
  Forall (fun kv => cabe B (snd kv)) result ->
  es_lista child_data = false -> (2 + depth child_data <= B)%nat ->
  Forall (fun kv => cabe B (snd kv)) (agregar_hijo result t child_data).
Proof.
  intros Hr Hl Hc. unfold agregar_hijo.
  destruct (dict_get result t) as [actual |] eqn:Hg.
  - pose proof (cabe_get B result t actual Hr Hg) as Ha.
    apply cabe_set; [exact Hr |]. unfold cabe in *. cbn [es_lista].
    destruct actual; cbn [es_lista] in Ha;
      rewrite depth_lista_app, ?depth_lista_uno; lia.
  - apply cabe_set; [exact Hr |]. unfold cabe. now rewrite Hl.
Qed.

Lemma cabe_bucle (B : nat) (hs : list Element) :
  Forall (fun c => (2 + depth (xml_to_dict c) <= B)%nat) hs ->
  forall result,
    Forall (fun kv => cabe B (snd kv)) result ->
    Forall (fun kv => cabe B (snd kv)) (bucle hs result).
Proof.
  induction 1 as [| c hs Hc Hhs IH]; intros result Hr; [exact Hr |].
  rewrite bucle_cons. apply IH.
  apply cabe_agregar; [exact Hr | apply xml_to_dict_no_lista | exact Hc].
Qed.

Lemma cabe_depth (B : nat) (d : dict) :
  Forall (fun kv => cabe B (snd kv)) d -> (depth (VDict d) <= B)%nat.
Proof.
  intros Hd. apply depth_dict_cota. eapply Forall_impl; [| exact Hd].
  intros [k v]. unfold cabe. cbn [snd]. destruct (es_lista v); lia.
Qed.

Lemma depth_attrib_value (attrib : list (string * string)) :
  (depth (attrib_value attrib) <= 1)%nat.
Proof.
  unfold attrib_value. apply depth_dict_cota.
  apply Forall_map. apply Forall_forall. intros [k v] _. simpl. lia.
Qed.

Lemma cabe_atributos (B : nat) (attrib : list (string * string)) :
  (3 <= B)%nat -> Forall (fun kv => cabe B (snd kv)) (atributos attrib).
Proof.
  intros HB. destruct attrib as [| a attrib]; [constructor |].
  cbn [atributos dict_set]. constructor; [| constructor].
  unfold cabe. cbn [snd es_lista attrib_value].
  pose proof (depth_attrib_value (a :: attrib)). unfold attrib_value in *. lia.
Qed.

Lemma depth_xml_to_dict (e : Element) :
  (depth (xml_to_dict e) <= 2 * altura e + 2)%nat.
Proof.
  induction e as [etag attrib text hs IH] using Element_tree_ind.
  rewrite xml_to_dict_eq. destruct hs as [| c cs].
  - cbn [List.length Nat.eqb bucle fold_left].
    destruct (texto_util text); [simpl; lia |].
    destruct attrib as [| a attrib]; [simpl; lia |].
    cbn [atributos dict_set]. apply depth_dict_cota. constructor; [| constructor].
    cbn [snd]. pose proof (depth_attrib_value (a :: attrib)). lia.
  - set (hs := c :: cs) in *. set (B := (2 * altura (mkElement etag attrib text hs) + 2)%nat).
    assert (Hh : Forall (fun x => (S (altura x) <= altura (mkElement etag attrib text hs))%nat) hs).
    { cbn [altura]. apply Forall_forall. intros x Hx.
      assert (Hle : (list_max (map (fun c0 => S (altura c0)) hs)
                     <= list_max (map (fun c0 => S (altura c0)) hs))%nat) by lia.
      apply list_max_le in Hle. rewrite Forall_map in Hle.
      rewrite Forall_forall in Hle. now apply Hle. }
    assert (Hc : Forall (fun x => (2 + depth (xml_to_dict x) <= B)%nat) hs).
    { apply Forall_forall. intros x Hx. rewrite Forall_forall in IH, Hh.
      specialize (IH x Hx). specialize (Hh x Hx). unfold B. lia. }
    assert (HB : (4 <= B)%nat).
    { inversion Hh as [| ? ? H1 _]; subst. unfold B. lia. }
    assert (Hl : (List.length hs =? 0)%nat = false) by reflexivity.
    rewrite Hl. destruct (texto_util text) as [t |]; apply cabe_depth.
    + apply cabe_bucle; [exact Hc |].
      apply cabe_set; [apply cabe_atributos; lia |]. unfold cabe. simpl. lia.
    + apply cabe_bucle; [exact Hc |]. apply cabe_atributos. lia.
Qed.

(** X5: the dictionary [xml_to_dict] builds is at most
    [2 * max_depth(element) + 2] levels deep, so [analizar_estructura_json]
    reports it without any line "profundidad máxima alcanzada" when
    [max_profundidad] is above that bound. *)
Theorem xml_to_dict_depth_bound (e : Element) :
  exists p,
    max_depth e 0 = inr p
    /\ Z.of_nat (depth (xml_to_dict e)) <= 2 * p + 2
    /\ forall prefijo n,
        2 * p + 2 < n ->
        sin_truncar (analizar_estructura_json (xml_to_dict e) prefijo n).
Proof.
  exists (Z.of_nat (altura e)). pose proof (depth_xml_to_dict e) as Hd.
  split; [apply max_depth_es_altura |]. split; [lia |].
  intros prefijo n Hn. apply recorrido_completo. lia.
Qed.

Lemma xml_to_dict_depth_bound_witness :
  max_depth (mkElement "r" [("id", "1")] None [mkElement "v" [("u", "m")] None []]) 0
  = inr 1
  /\ depth (xml_to_dict
              (mkElement "r" [("id", "1")] None [mkElement "v" [("u", "m")] None []]))
     = 3%nat
  /\ sin_truncar
       (analizar_estructura_json
          (xml_to_dict
             (mkElement "r" [("id", "1")] None [mkElement "v" [("u", "m")] None []]))
          "" 5).
Proof.
  split; [reflexivity |]. split; [reflexivity |].
  destruct (xml_to_dict_depth_bound
              (mkElement "r" [("id", "1")] None [mkElement "v" [("u", "m")] None []]))
    as (p & Hp & _ & Hs).
  apply Hs. injection Hp as <-. lia.
Defined.

(** ** More on the walker *)

Lemma sin_truncar_app_inv (a b : list linea) :
  sin_truncar (a ++ b) -> sin_truncar a /\ sin_truncar b.
Proof. unfold sin_truncar. rewrite forallb_app. apply andb_prop. Qed.

Lemma sin_truncar_cons_inv (l : linea) (a : list linea) :
  sin_truncar (l :: a) -> sin_truncar a.
Proof. intros H. now apply (sin_truncar_app_inv [l] a). Qed.

Lemma truncado_en_cero (datos : value) (prefijo : string) :
  ~ sin_truncar (analizar_estructura_json datos prefijo 0).
Proof. rewrite analizar_cero. discriminate. Qed.

(** X6: when the report of [analizar_estructura_json] for a limit
    [max_profundidad > 0] has no line "profundidad máxima alcanzada", every
    greater limit gives the same report. *)
Theorem report_stable_above_limit (datos : value) :
  forall (prefijo : string) (n m : Z),
    0 < n -> n <= m ->
    sin_truncar (analizar_estructura_json datos prefijo n) ->
    analizar_estructura_json datos prefijo m = analizar_estructura_json datos prefijo n.
Proof.
  induction datos as [| b | z | f | s | elems IH | items IH | tipo texto]
    using value_tree_ind; intros prefijo n m Hn Hm Hs;
    try (rewrite !analizar_otro; [reflexivity | lia | reflexivity | lia | reflexivity]).
  - destruct elems as [| primero resto].
    + rewrite !analizar_lista_vacia; [reflexivity | lia | lia].
    + inversion IH as [| ? ? IHp _]; subst.
      rewrite analizar_lista in Hs by lia. rewrite !analizar_lista by lia.
      apply sin_truncar_cons_inv, sin_truncar_app_inv in Hs as [_ Hs].
      destruct (Z.eq_dec n 1) as [-> | Hn1];
        [now apply truncado_en_cero in Hs |].
      now rewrite (IHp (prefijo ++ "[0]") (n - 1) (m - 1)) by (lia || exact Hs).
  - induction items as [| [clave valor] items IHitems].
    + rewrite !analizar_dict_vacio; [reflexivity | lia | lia].
    + inversion IH as [| ? ? IHv IHresto]; subst. simpl in IHv.
      rewrite analizar_dict in Hs by lia. rewrite !analizar_dict by lia.
      apply sin_truncar_app_inv in Hs as [Hv Hresto].
      rewrite (IHitems IHresto Hresto). f_equal.
      destruct (es_contenedor valor); [| reflexivity].
      apply sin_truncar_cons_inv in Hv.
      destruct (Z.eq_dec n 1) as [-> | Hn1];
        [now apply truncado_en_cero in Hv |].
      now rewrite (IHv (nuevo_prefijo prefijo clave) (n - 1) (m - 1)) by (lia || exact Hv).
Qed.

Lemma report_stable_above_limit_witness :
  0 < 2 /\ 2 <= 9
  /\ sin_truncar (analizar_estructura_json
                    (VDict [("a", VDict [("b", VInt 1)]); ("c", VList [])]) "" 2)
  /\ analizar_estructura_json (VDict [("a", VDict [("b", VInt 1)]); ("c", VList [])]) "" 9
     = analizar_estructura_json (VDict [("a", VDict [("b", VInt 1)]); ("c", VList [])]) "" 2.
Proof.
  split; [lia |]. split; [lia |]. split; [reflexivity |].
  apply (report_stable_above_limit
           (VDict [("a", VDict [("b", VInt 1)]); ("c", VList [])]) "" 2 9);
    [lia | lia | reflexivity].
Defined.

(** Prefixes of strings. *)

Lemma prefix_app (p s : string) : prefix p (p ++ s) = true.
Proof.
  induction p as [| c p IH]; simpl; [now destruct s |].
  destruct (ascii_dec c c); [exact IH | contradiction].
Qed.

Lemma prefix_trans (p q r : string) :
  prefix p q = true -> prefix q r = true -> prefix p r = true.
Proof.
  revert q r. induction p as [| c p IH]; intros q r Hpq Hqr; [now destruct r |].
  destruct q as [| c' q]; [discriminate |]. destruct r as [| c'' r]; [discriminate |].
  simpl in *. destruct (ascii_dec c c'); [| discriminate].
  destruct (ascii_dec c' c''); [| discriminate]. subst.
  destruct (ascii_dec c'' c''); [| contradiction]. now apply (IH q r).
Qed.

Lemma prefix_nuevo_prefijo (prefijo clave : string) :
  prefix prefijo (nuevo_prefijo prefijo clave) = true.
Proof.
  unfold nuevo_prefijo. destruct prefijo; simpl no_vacia; cbv iota.
  - now destruct clave.
  - apply prefix_app.
Qed.

(** X7: every line [analizar_estructura_json] prints starts with the
    [prefijo] it was called with, so all the lines about a subtree start
    with the path of that subtree. *)
Theorem report_lines_start_with_prefix (repr : value -> string) (datos : value) :
  forall (prefijo : string) (max_profundidad : Z),
    Forall (fun l => prefix prefijo (render repr l) = true)
           (analizar_estructura_json datos prefijo max_profundidad).
Proof.
  induction datos as [| b | z | f | s | elems IH | items IH | tipo texto]
    using value_tree_ind; intros prefijo n;
    (destruct (Z.eq_dec n 0) as [-> | Hn];
     [rewrite analizar_cero; constructor; [apply prefix_app | constructor] |]);
    try (rewrite analizar_otro; [constructor | exact Hn | reflexivity]).
  - destruct elems as [| primero resto].
    + rewrite analizar_lista_vacia by exact Hn. constructor.
    + inversion IH as [| ? ? IHp _]; subst. rewrite analizar_lista by exact Hn.
      constructor; [apply prefix_app |]. apply Forall_app. split.
      * destruct (1 <=? List.length resto)%nat; constructor;
          [apply prefix_app | constructor].
      * eapply Forall_impl; [| apply (IHp (prefijo ++ "[0]") (n - 1))].
        intros l Hl. eapply prefix_trans; [apply prefix_app | exact Hl].
  - induction items as [| [clave valor] items IHitems].
    + rewrite analizar_dict_vacio by exact Hn. constructor.
    + inversion IH as [| ? ? IHv IHresto]; subst. simpl in IHv.
      rewrite analizar_dict by exact Hn. apply Forall_app. split; [| now apply IHitems].
      destruct (es_contenedor valor).
      * constructor.
        -- eapply prefix_trans; [apply prefix_nuevo_prefijo | apply prefix_app].
        -- eapply Forall_impl; [| apply (IHv (nuevo_prefijo prefijo clave) (n - 1))].
           intros l Hl. eapply prefix_trans; [apply prefix_nuevo_prefijo | exact Hl].
      * constructor; [| constructor].
        eapply prefix_trans; [apply prefix_nuevo_prefijo | apply prefix_app].
Qed.

(** ** JSON Lines *)

Lemma cargar_desde_app (json_loads : string -> exn + value) (lineas : list string) :
  forall datos,
    cargar_desde json_loads datos lineas
    = (nuevos <- cargar_desde json_loads [] lineas ;; inr (datos ++ nuevos)%list).
Proof.
  induction lineas as [| linea resto IH]; intros datos.
  - simpl. now rewrite app_nil_r.
  - cbn [cargar_desde]. destruct (no_vacia (strip linea)); [| apply IH].
    destruct (json_loads linea) as [e | dato]; [reflexivity |]. cbn [bind].
    rewrite (IH (datos ++ [dato])%list), (IH ([] ++ [dato])%list).
    destruct (cargar_desde json_loads [] resto) as [e | nuevos]; [reflexivity |].
    cbn [bind]. now rewrite <- app_assoc.
Qed.

Lemma cargar_jsonl_cons (json_loads : string -> exn + value) (linea : string)
    (resto : list string) :
  cargar_jsonl json_loads (linea :: resto)
  = if no_vacia (strip linea) then
      dato <- json_loads linea ;;
      datos <- cargar_jsonl json_loads resto ;; inr (dato :: datos)
    else cargar_jsonl json_loads resto.
Proof.
  unfold cargar_jsonl. cbn [cargar_desde].
  destruct (no_vacia (strip linea)); [| reflexivity].
  destruct (json_loads linea) as [e | dato]; [reflexivity |]. cbn [bind].
  now rewrite cargar_desde_app.
Qed.

(** X8: [cargar_jsonl] returns a list exactly when [json.loads] accepts
    every line that is not blank; the list then holds the value of each of
    these lines, one per line and in the order of the file, and the blank
    lines leave no trace. *)
Theorem cargar_jsonl_success (json_loads : string -> exn + value)
    (lineas : list string) (datos : list value) :
  cargar_jsonl json_loads lineas = inr datos
  <-> Forall2 (fun linea dato => json_loads linea = inr dato)
              (con_contenido lineas) datos.
Proof.
  revert datos. induction lineas as [| linea resto IH]; intros datos.
  - cbn. split.
    + intros [= <-]. constructor.
    + intros H. inversion H. reflexivity.
  - rewrite cargar_jsonl_cons. unfold con_contenido in *. cbn [filter].
    destruct (no_vacia (strip linea)); [| apply IH].
    destruct (json_loads linea) as [e | dato] eqn:Hl; cbn [bind].
    + split; [discriminate |]. intros H. inversion H; subst. congruence.
    + destruct (cargar_jsonl json_loads resto) as [e | ds] eqn:Hr; cbn [bind].
      * split; [discriminate |]. intros H. inversion H as [| ? d ? ds' Hd Hds]; subst.
        apply IH in Hds. discriminate.
      * split.
        -- intros [= <-]. constructor; [exact Hl | now apply IH].
        -- intros H. inversion H as [| ? d ? ds' Hd Hds]; subst.
           apply IH in Hds. congruence.
Qed.

(** X9: when [cargar_jsonl] raises, the exception is the one [json.loads]
    raises on the first line it does not accept: that line is not blank,
    and every line before it is blank or accepted. *)
Theorem cargar_jsonl_failure (json_loads : string -> exn + value)
    (lineas : list string) (e : exn) :
  cargar_jsonl json_loads lineas = inl e
  <-> exists antes linea despues,
      lineas = (antes ++ linea :: despues)%list
      /\ no_vacia (strip linea) = true
      /\ json_loads linea = inl e
      /\ exists datos, cargar_jsonl json_loads antes = inr datos.
Proof.
  induction lineas as [| linea resto IH].
  - split; [discriminate |]. intros (antes & l & despues & H & _). now destruct antes.
  - rewrite cargar_jsonl_cons. split.
    + destruct (no_vacia (strip linea)) eqn:Hb.
      * destruct (json_loads linea) as [e' | dato] eqn:Hl; cbn [bind].
        -- intros [= <-]. exists [], linea, resto. repeat split; auto.
           now exists [].
        -- destruct (cargar_jsonl json_loads resto) as [e' | ds] eqn:Hr; [| discriminate].
           cbn [bind]. intros [= <-].
           destruct (proj1 IH eq_refl) as (antes & l & despues & -> & Hlb & Hle & ds & Hds).
           exists (linea :: antes), l, despues. repeat split; auto.
           exists (dato :: ds). now rewrite cargar_jsonl_cons, Hb, Hl, Hds.
      * intros Hr.
        destruct (proj1 IH Hr) as (antes & l & despues & -> & Hlb & Hle & ds & Hds).
        exists (linea :: antes), l, despues. repeat split; auto.
        exists ds. now rewrite cargar_jsonl_cons, Hb.
    + intros (antes & l & despues & Heq & Hlb & Hle & ds & Hds).
      destruct antes as [| a antes]; cbn [app] in Heq; injection Heq as -> ->.
      * now rewrite Hlb, Hle.
      * rewrite cargar_jsonl_cons in Hds.
        assert (Hresto : cargar_jsonl json_loads (antes ++ l :: despues) = inl e).
        { apply IH. exists antes, l, despues. repeat split; auto.
          destruct (no_vacia (strip a)); [| now exists ds].
          destruct (json_loads a); [discriminate |]. cbn [bind] in Hds.
          destruct (cargar_jsonl json_loads antes) as [| ds']; [discriminate |].
          now exists ds'. }
        destruct (no_vacia (strip a)); [| exact Hresto].
        destruct (json_loads a); [discriminate |]. cbn [bind]. now rewrite Hresto.
Qed.

(** ** The rows of the metrics *)

Example extraer_metricas_sin_columnas :
  extraer_metricas_experimentos documento = inl (KeyError "fecha").
Proof. reflexivity. Qed.






(** ** The best accuracy *)

Lemma max_resto_maximo (py_gt : value -> value -> exn + bool)
    (gt : value -> value -> bool) (P : value -> Prop) :
  (forall x y, P x -> P y -> py_gt x y = inr (gt x y)) ->
  (forall x, P x -> gt x x = false) ->
  (forall x y z, P x -> P y -> P z -> gt x y = true -> gt y z = true -> gt x z = true) ->
  forall resto m a,
    P m ->
    (forall exp x, In exp resto -> accuracy_de exp = inr x -> P x) ->
    max_resto py_gt m resto = inr a ->
    P a
    /\ (a = m \/ es_accuracy resto a)
    /\ (forall y, P y -> gt y m = false -> gt y a = false)
    /\ (forall exp x, In exp resto -> accuracy_de exp = inr x -> gt x a = false).
Proof.
  intros Hgt Hirr Htr. induction resto as [| exp resto IH]; intros m a Hm Hr Hmax.
  - injection Hmax as <-. repeat split; auto. intros exp x [].
  - cbn [max_resto] in Hmax.
    destruct (accuracy_de exp) as [e | item] eqn:Hitem; [discriminate |].
    cbn [bind] in Hmax.
    assert (Pitem : P item) by (apply (Hr exp); [now left | exact Hitem]).
    rewrite (Hgt item m Pitem Hm) in Hmax. cbn [bind] in Hmax.
    assert (Hr' : forall e x, In e resto -> accuracy_de e = inr x -> P x)
      by (intros e x He; apply Hr; now right).
    destruct (gt item m) eqn:Hb.
    + destruct (IH item a Pitem Hr' Hmax) as (Pa & Hin & Hy & Hresto).
      assert (Hno : forall y, P y -> gt y m = false -> gt y item = false).
      { intros y Py Hym. destruct (gt y item) eqn:Hyi; [| reflexivity].
        rewrite (Htr y item m Py Pitem Hm Hyi Hb) in Hym. discriminate. }
      repeat split.
      * exact Pa.
      * right. destruct Hin as [-> | (e & He & Hacc)].
        -- exists exp. split; [now left | exact Hitem].
        -- exists e. split; [now right | exact Hacc].
      * intros y Py Hym. apply Hy; [exact Py | now apply Hno].
      * intros e x [<- | He] Hacc.
        -- rewrite Hitem in Hacc. injection Hacc as <-.
           apply Hy; [exact Pitem | now apply Hirr].
        -- now apply (Hresto e).
    + destruct (IH m a Hm Hr' Hmax) as (Pa & Hin & Hy & Hresto).
      repeat split.
      * exact Pa.
      * destruct Hin as [-> | (e & He & Hacc)]; [now left |].
        right. exists e. split; [now right | exact Hacc].
      * exact Hy.
      * intros e x [<- | He] Hacc.
        -- rewrite Hitem in Hacc. injection Hacc as <-. now apply Hy.
        -- now apply (Hresto e).
Qed.

Lemma mejor_accuracy_eq (py_gt : value -> value -> exn + bool) (datos : value) :
  mejor_accuracy py_gt datos
  = (exps <- experimentos_de datos ;;
     match exps with
     | [] => inl ValueError
     | exp :: resto => item <- accuracy_de exp ;; max_resto py_gt item resto
     end).
Proof.
  unfold mejor_accuracy, experimentos_de.
  now destruct (ruta datos ["investigacion"; "experimentos"]).
Qed.

(** X11: the best accuracy [json_nested_to_flat] reports is the accuracy of
    one of the experiments, and no experiment has a greater one, when [>]
    compares the accuracies without raising and as a strict order
    (irreflexive and transitive), as it does on numbers. *)
Theorem best_accuracy_is_maximal (py_gt : value -> value -> exn + bool)
    (gt : value -> value -> bool) (datos : value) (exps : list value) (a : value) :
  experimentos_de datos = inr exps ->
  (forall x y, es_accuracy exps x -> es_accuracy exps y -> py_gt x y = inr (gt x y)) ->
  (forall x, es_accuracy exps x -> gt x x = false) ->
  (forall x y z, es_accuracy exps x -> es_accuracy exps y -> es_accuracy exps z ->
                 gt x y = true -> gt y z = true -> gt x z = true) ->
  mejor_accuracy py_gt datos = inr a ->
  es_accuracy exps a /\ forall x, es_accuracy exps x -> gt x a = false.
Proof.
  intros He Hgt Hirr Htr Hmax.
  rewrite mejor_accuracy_eq, He in Hmax. cbn [bind] in Hmax.
  destruct exps as [| exp resto]; [discriminate |].
  destruct (accuracy_de exp) as [e | item] eqn:Hitem; [discriminate |].
  cbn [bind] in Hmax.
  assert (Pitem : es_accuracy (exp :: resto) item)
    by (exists exp; split; [now left | exact Hitem]).
  destruct (max_resto_maximo py_gt gt (es_accuracy (exp :: resto)) Hgt Hirr Htr
              resto item a Pitem) as (Pa & _ & Hy & Hresto); [| exact Hmax |].
  - intros e x He' Hacc. exists e. split; [now right | exact Hacc].
  - split; [exact Pa |]. intros x (e & [<- | Hin] & Hacc).
    + rewrite Hitem in Hacc. injection Hacc as <-.
      apply Hy; [exact Pitem | now apply Hirr].
    + now apply (Hresto e).
Qed.

Lemma best_accuracy_is_maximal_witness :
  experimentos_de documento
  = inr [VDict [("id", VStr "E1"); ("resultados", VDict [("accuracy", VInt 81)])];
         VDict [("id", VStr "E2"); ("resultados", VDict [("accuracy", VInt 93)])];
         VDict [("id", VStr "E3"); ("resultados", VDict [("accuracy", VInt 90)])]]
  /\ mejor_accuracy gt_enteros documento = inr (VInt 93)
  /\ mayor_entero (VInt 81) (VInt 93) = false
  /\ mayor_entero (VInt 90) (VInt 93) = false.
Proof.
  split; [reflexivity |]. split; [reflexivity |].
  pose (exps := [VDict [("id", VStr "E1"); ("resultados", VDict [("accuracy", VInt 81)])];
                 VDict [("id", VStr "E2"); ("resultados", VDict [("accuracy", VInt 93)])];
                 VDict [("id", VStr "E3"); ("resultados", VDict [("accuracy", VInt 90)])]]).
  assert (Hacc : forall x, es_accuracy exps x ->
                           x = VInt 81 \/ x = VInt 93 \/ x = VInt 90).
  { intros x (exp & Hin & Hx). destruct Hin as [<- | [<- | [<- | []]]];
      injection Hx as <-; auto. }
  destruct (best_accuracy_is_maximal gt_enteros mayor_entero documento exps (VInt 93))
    as [_ Hmax].
  - reflexivity.
  - intros x y Hx Hy.
    destruct (Hacc x Hx) as [-> | [-> | ->]], (Hacc y Hy) as [-> | [-> | ->]];
      reflexivity.
  - intros x Hx. destruct (Hacc x Hx) as [-> | [-> | ->]]; reflexivity.
  - intros x y z Hx Hy Hz.
    destruct (Hacc x Hx) as [-> | [-> | ->]], (Hacc y Hy) as [-> | [-> | ->]],
      (Hacc z Hz) as [-> | [-> | ->]]; vm_compute; congruence.
  - reflexivity.
  - split; apply Hmax.
    + exists (VDict [("id", VStr "E1"); ("resultados", VDict [("accuracy", VInt 81)])]).
      split; [now left | reflexivity].
    + exists (VDict [("id", VStr "E3"); ("resultados", VDict [("accuracy", VInt 90)])]).
      split; [right; right; now left | reflexivity].
Defined.

(** X12: when the experiments are an empty sequence,
    [extraer_metricas_experimentos] returns no row and raises nothing, while
    [json_nested_to_flat] cannot build its mapping: [max] of no accuracy is
    a [ValueError]. *)
Theorem no_experiments (py_gt : value -> value -> exn + bool) (datos : value) :
  experimentos_de datos = inr [] ->
  extraer_metricas_experimentos datos = inr []
  /\ mejor_accuracy py_gt datos = inl ValueError
  /\ exists e, datos_planos py_gt datos = inl e.
Proof.
  intros He.
  assert (Hm : mejor_accuracy py_gt datos = inl ValueError)
    by (now rewrite mejor_accuracy_eq, He).
  split; [| split; [exact Hm |]].
  - unfold extraer_metricas_experimentos. unfold experimentos_de in He.
    destruct (ruta datos ["investigacion"; "experimentos"]) as [e | experimentos];
      [discriminate |]. cbn [bind] in *. now rewrite He.
  - unfold datos_planos. rewrite Hm.
    repeat match goal with
      | |- exists e, bind ?x _ = inl e =>
          destruct x; cbn [bind]; [eexists; reflexivity |]
      end.
    eexists; reflexivity.
Qed.

Lemma no_experiments_witness :
  experimentos_de (VDict [("investigacion", VDict [("experimentos", VList [])])])
  = inr []
  /\ extraer_metricas_experimentos
       (VDict [("investigacion", VDict [("experimentos", VList [])])]) = inr []
  /\ mejor_accuracy gt_enteros
       (VDict [("investigacion", VDict [("experimentos", VList [])])]) = inl ValueError.
Proof.
  split; [reflexivity |].
  destruct (no_experiments gt_enteros
              (VDict [("investigacion", VDict [("experimentos", VList [])])]) eq_refl)
    as (Hf & Hm & _).
  split; [exact Hf | exact Hm].
Defined.

(** ** The statistics of the graph *)

Example nodos_por_tipo_ejemplo :
  nodos_por_tipo clave_str grafo_ejemplo
  = inr [(VStr "Investigador", 2%nat); (VStr "Paper", 1%nat)].
Proof. reflexivity. Qed.

Example top_colaboradores_ejemplo :
  match colaboraciones_de clave_str grafo_ejemplo with
  | inr c => map (fun x => (fst x, num_colaboraciones x)) (top_colaboradores c)
  | inl _ => []
  end
  = [(VStr "i1", 2%nat); (VStr "i2", 1%nat); (VStr "i3", 1%nat)].
Proof. reflexivity. Qed.

Lemma incrementar_suma (clave_eq : value -> value -> bool) (d : list (value * nat))
    (k : value) :
  list_sum (map snd (incrementar clave_eq d k)) = S (list_sum (map snd d)).
Proof.
  induction d as [| [k' n] d IH]; [reflexivity |]. cbn [incrementar].
  destruct (clave_eq k' k); cbn [map snd list_sum fold_right] in *;
    fold (list_sum (map snd d)) in *;
    fold (list_sum (map snd (incrementar clave_eq d k))) in *; lia.
Qed.

Lemma incrementar_claves (clave_eq : value -> value -> bool) (P : value -> Prop)
    (d : list (value * nat)) (k : value) :
  Forall (fun kn => (1 <= snd kn)%nat /\ P (fst kn)) d -> P k ->
  Forall (fun kn => (1 <= snd kn)%nat /\ P (fst kn)) (incrementar clave_eq d k).
Proof.
  intros Hd Hk. induction Hd as [| [k' n] d [Hn Hk'] Hd IH]; cbn [incrementar].
  - constructor; [split; [simpl; lia | exact Hk] | constructor].
  - destruct (clave_eq k' k); constructor; auto. split; [simpl in *; lia | exact Hk'].
Qed.

Lemma contar_tipos_suma (clave_eq : value -> value -> bool) (items : list value) :
  forall d d',
    contar_tipos clave_eq d items = inr d' ->
    list_sum (map snd d') = (list_sum (map snd d) + List.length items)%nat.
Proof.
  induction items as [| item resto IH]; intros d d' H.
  - injection H as <-. simpl. lia.
  - cbn [contar_tipos] in H. destruct (subscript item "tipo") as [e | tipo]; [discriminate |].
    cbn [bind] in H. destruct (es_contenedor tipo); [discriminate |].
    rewrite (IH _ _ H), incrementar_suma. simpl. lia.
Qed.

Lemma contar_tipos_claves (clave_eq : value -> value -> bool) (P : value -> Prop)
    (items : list value) :
  (forall item k, In item items -> subscript item "tipo" = inr k -> P k) ->
  forall d d',
    Forall (fun kn => (1 <= snd kn)%nat /\ P (fst kn)) d ->
    contar_tipos clave_eq d items = inr d' ->
    Forall (fun kn => (1 <= snd kn)%nat /\ P (fst kn)) d'.
Proof.
  induction items as [| item resto IH]; intros HP d d' Hd H.
  - now injection H as <-.
  - cbn [contar_tipos] in H.
    destruct (subscript item "tipo") as [e | tipo] eqn:Ht; [discriminate |].
    cbn [bind] in H. destruct (es_contenedor tipo); [discriminate |].
    apply (IH (fun i k Hi => HP i k (or_intror Hi)) _ _ (incrementar_claves _ P d tipo Hd
             (HP item tipo (or_introl eq_refl) Ht)) H).
Qed.

(** X13: when the count of the nodes by type (and likewise of the edges)
    ends, the counts add up to the number of nodes, every count is at least
    1, and every key is the ['tipo'] of some node; this holds whatever keys
    the dict takes for equal. *)
Theorem type_counts_add_up (clave_eq : value -> value -> bool) (grafo : value) :
  (forall por_tipo,
      nodos_por_tipo clave_eq grafo = inr por_tipo ->
      exists nodos,
        lista_de grafo "nodos" = inr nodos
        /\ list_sum (map snd por_tipo) = List.length nodos
        /\ Forall (fun kn => (1 <= snd kn)%nat
                             /\ exists nodo, In nodo nodos
                                             /\ subscript nodo "tipo" = inr (fst kn))
                  por_tipo)
  /\ (forall por_tipo,
         aristas_por_tipo clave_eq grafo = inr por_tipo ->
         exists aristas,
           lista_de grafo "aristas" = inr aristas
           /\ list_sum (map snd por_tipo) = List.length aristas
           /\ Forall (fun kn => (1 <= snd kn)%nat
                                /\ exists arista, In arista aristas
                                                  /\ subscript arista "tipo" = inr (fst kn))
                     por_tipo).
Proof.
  assert (H : forall clave por_tipo,
             (lista <- subscript grafo clave ;; items <- py_iter lista ;;
              contar_tipos clave_eq [] items) = inr por_tipo ->
             exists items,
               lista_de grafo clave = inr items
               /\ list_sum (map snd por_tipo) = List.length items
               /\ Forall (fun kn => (1 <= snd kn)%nat
                                    /\ exists item, In item items
                                                    /\ subscript item "tipo" = inr (fst kn))
                         por_tipo).
  { intros clave por_tipo. unfold lista_de.
    destruct (subscript grafo clave) as [e | lista]; [discriminate |]. cbn [bind].
    destruct (py_iter lista) as [e | items]; [discriminate |]. cbn [bind].
    intros Hc. exists items. split; [reflexivity |]. split.
    - now rewrite (contar_tipos_suma clave_eq items [] por_tipo Hc).
    - apply (contar_tipos_claves clave_eq
               (fun k => exists item, In item items /\ subscript item "tipo" = inr k)
               items) with (d := []); [| constructor | exact Hc].
      intros item k Hin Hk. now exists item. }
  split; intros por_tipo; apply H.
Qed.

Lemma type_counts_add_up_witness :
  nodos_por_tipo clave_str grafo_ejemplo
  = inr [(VStr "Investigador", 2%nat); (VStr "Paper", 1%nat)]
  /\ exists nodos,
      lista_de grafo_ejemplo "nodos" = inr nodos
      /\ (2 + (1 + 0))%nat = List.length nodos.
Proof.
  split; [reflexivity |].
  destruct (proj1 (type_counts_add_up clave_str grafo_ejemplo) _ eq_refl)
    as (nodos & Hn & Hs & _).
  exists nodos. split; [exact Hn | exact Hs].
Defined.





(** ** The sort and the top three *)

Section Orden.
Context {A : Type} (num : A -> nat).

Lemma insertar_desc_perm (x : A) (l : list A) :
  Permutation (insertar_desc num x l) (x :: l).
Proof.
  induction l as [| y l IH]; [reflexivity |]. cbn [insertar_desc].
  destruct (num y <? num x)%nat; [reflexivity |].
  rewrite IH. apply perm_swap.
Qed.

Lemma insertar_desc_sorted (x : A) (l : list A) :
  StronglySorted (fun a b => (num b <= num a)%nat) l ->
  StronglySorted (fun a b => (num b <= num a)%nat) (insertar_desc num x l).
Proof.
  induction 1 as [| y l Hl IH Hy]; cbn [insertar_desc].
  - repeat constructor.
  - destruct (Nat.ltb_spec (num y) (num x)) as [Hlt | Hge].
    + constructor; [now constructor |]. constructor; [lia |].
      eapply Forall_impl; [| exact Hy]. intros b Hb. cbn beta in *. lia.
    + constructor; [exact IH |].
      eapply Permutation_Forall; [symmetry; apply insertar_desc_perm |].
      now constructor.
Qed.

(** An item goes after the items of the same key that are already there. *)
Lemma insertar_desc_estable (n : nat) (x : A) (l : list A) :
  StronglySorted (fun a b => (num b <= num a)%nat) l ->
  filter (fun y => num y =? n)%nat (insertar_desc num x l)
  = (filter (fun y => num y =? n)%nat l
     ++ if (num x =? n)%nat then [x] else [])%list.
Proof.
  induction 1 as [| y l Hl IH Hy]; cbn [insertar_desc].
  - cbn [filter]. now destruct (num x =? n)%nat.
  - destruct (Nat.ltb_spec (num y) (num x)) as [Hlt | Hge].
    + cbn [filter]. destruct (Nat.eqb_spec (num x) n) as [Hx | Hx].
      * assert (Hnone : filter (fun y0 => (num y0 =? n)%nat) (y :: l) = []).
        { cbn [filter]. destruct (Nat.eqb_spec (num y) n); [lia |].
          clear IH Hl. induction Hy as [| z l Hz Hy IHy]; [reflexivity |].
          cbn [filter]. destruct (Nat.eqb_spec (num z) n); [lia | exact IHy]. }
        cbn [filter] in Hnone. now rewrite Hnone.
      * now rewrite app_nil_r.
    + cbn [filter]. rewrite IH. now destruct (num y =? n)%nat.
Qed.

Lemma sorted_desc_snoc (l : list A) (x : A) :
  sorted_desc num (l ++ [x]) = insertar_desc num x (sorted_desc num l).
Proof. unfold sorted_desc. now rewrite fold_left_app. Qed.

Lemma sorted_desc_spec (l : list A) :
  Permutation (sorted_desc num l) l
  /\ StronglySorted (fun a b => (num b <= num a)%nat) (sorted_desc num l)
  /\ forall n, filter (fun y => num y =? n)%nat (sorted_desc num l)
               = filter (fun y => num y =? n)%nat l.
Proof.
  induction l as [| x l IH] using rev_ind.
  - repeat split; constructor.
  - destruct IH as (Hp & Hs & He). rewrite sorted_desc_snoc. repeat split.
    + rewrite insertar_desc_perm, Hp. apply Permutation_cons_append.
    + now apply insertar_desc_sorted.
    + intros n. rewrite insertar_desc_estable by exact Hs.
      rewrite He, filter_app. cbn [filter]. now destruct (num x =? n)%nat.
Qed.

Lemma sorted_firstn_skipn (k : nat) (l : list A) :
  StronglySorted (fun a b => (num b <= num a)%nat) l ->
  forall a b, In a (firstn k l) -> In b (skipn k l) -> (num b <= num a)%nat.
Proof.
  intros Hs. revert k. induction Hs as [| y l Hl IH Hy]; intros k a b Ha Hb.
  - destruct k; contradiction.
  - destruct k as [| k]; [contradiction |]. cbn [firstn skipn] in Ha, Hb.
    destruct Ha as [<- | Ha]; [| now apply (IH k)].
    rewrite Forall_forall in Hy. apply Hy.
    rewrite <- (firstn_skipn k l). apply in_or_app. now right.
Qed.
End Orden.

(** X15: the researchers [analizar_grafo_json] lists are the first three (or
    all of them, when there are fewer) of [colaboraciones] put in order of
    decreasing number of collaborations: no researcher left out has more
    collaborations than a listed one, and researchers with the same number
    stay in the order in which they entered [colaboraciones]. *)
Theorem top_three_collaborators
    (colaboraciones : list (value * list (value * value))) :
  List.length (top_colaboradores colaboraciones)
  = Nat.min 3 (List.length colaboraciones)
  /\ exists resto,
      Permutation (top_colaboradores colaboraciones ++ resto) colaboraciones
      /\ descendente (top_colaboradores colaboraciones ++ resto)
      /\ (forall a b,
             In a (top_colaboradores colaboraciones) -> In b resto ->
             (num_colaboraciones b <= num_colaboraciones a)%nat)
      /\ (forall n,
             filter (fun x => num_colaboraciones x =? n)%nat
                    (top_colaboradores colaboraciones ++ resto)
             = filter (fun x => num_colaboraciones x =? n)%nat colaboraciones).
Proof.
  destruct (sorted_desc_spec num_colaboraciones colaboraciones) as (Hp & Hs & He).
  unfold top_colaboradores. split.
  - rewrite length_firstn. now rewrite (Permutation_length Hp).
  - exists (skipn 3 (sorted_desc num_colaboraciones colaboraciones)).
    rewrite firstn_skipn. repeat split.
    + exact Hp.
    + exact Hs.
    + now apply sorted_firstn_skipn.
    + exact He.
Qed.

(** ** The ontology *)

Example analizar_ontologia_ejemplo :
  analizar_ontologia ontologia_ejemplo
  = Some {| total_classes := 3;
            jerarquia := [(Some "Enfermedad", (Some "C3", Some "Proceso"));
                          (Some "Sintoma", (Some "C2", Some "Thing"))];
            relaciones := [{| source := Some "Enfermedad"; rel_type := Some "causa";
                              target := Some "Sintoma"; probability := "N/A" |}];
            propiedades_por_clase := [(Some "Enfermedad", 0%nat);
                                      (Some "Sintoma", 0%nat)] |}.
Proof. reflexivity. Qed.

Lemma misma_clave_eq (a b : option string) : misma_clave a b = true <-> a = b.
Proof.
  destruct a as [x |], b as [y |]; simpl; try (split; [discriminate | congruence]).
  - rewrite String.eqb_eq. split; congruence.
  - split; reflexivity.
Qed.

Lemma misma_clave_neq (a b : option string) : misma_clave a b = false <-> a <> b.
Proof.
  rewrite <- misma_clave_eq. destruct (misma_clave a b); split; congruence.
Qed.

Lemma buscar_poner_eq {V : Type} (d : list (option string * V)) (k : option string)
    (v : V) :
  buscar (poner d k v) k = Some v.
Proof.
  assert (Hk : misma_clave k k = true) by now apply misma_clave_eq.
  induction d as [| [k' v'] d IH]; simpl; [now rewrite Hk |].
  destruct (misma_clave k' k) eqn:E; simpl; [now rewrite Hk | now rewrite E].
Qed.

Lemma buscar_poner_neq {V : Type} (d : list (option string * V)) (k k' : option string)
    (v : V) :
  k' <> k -> buscar (poner d k' v) k = buscar d k.
Proof.
  intros Hne. apply misma_clave_neq in Hne.
  induction d as [| [k0 v0] d IH]; simpl; [now rewrite Hne |].
  destruct (misma_clave k0 k') eqn:E; simpl.
  - apply misma_clave_eq in E. subst k0. now rewrite Hne.
  - now rewrite IH.
Qed.

Lemma poner_claves {V W : Type} (d1 : list (option string * V))
    (d2 : list (option string * W)) (k : option string) (v : V) (w : W) :
  map fst d1 = map fst d2 -> map fst (poner d1 k v) = map fst (poner d2 k w).
Proof.
  revert d2. induction d1 as [| [k1 v1] d1 IH]; intros [| [k2 v2] d2] H;
    try discriminate; [reflexivity |].
  simpl in H. injection H as <- H. simpl.
  destruct (misma_clave k1 k); simpl; [now rewrite H | now rewrite (IH d2 H)].
Qed.

Lemma poner_length {V : Type} (d : list (option string * V)) (k : option string) (v : V) :
  (List.length (poner d k v) <= S (List.length d))%nat.
Proof.
  induction d as [| [k' v'] d IH]; simpl; [lia |].
  destruct (misma_clave k' k); simpl; lia.
Qed.

Lemma paso_clase_spec (a : analisis) (clase : Element) :
  paso_clase a clase
  = match find clase "name", find clase "parent" with
    | Some nombre, Some padre =>
        Some {| total_classes := total_classes a;
                jerarquia := poner (jerarquia a) (text nombre)
                                   (get clase "id", text padre);
                relaciones :=
                  (relaciones a
                   ++ map (fun rel =>
                             {| source := text nombre;
                                rel_type := get rel "type";
                                target := get rel "target";
                                probability := get_o rel "probability" "N/A" |})
                          (findall_descendientes clase "relation"))%list;
                propiedades_por_clase :=
                  poner (propiedades_por_clase a) (text nombre)
                        (List.length (findall_descendientes clase "property")) |}
    | _, _ => None
    end.
Proof. unfold paso_clase. now destruct (find clase "name"), (find clase "parent"). Qed.

Lemma recorrer_clases_app (l1 l2 : list Element) :
  forall a,
    recorrer_clases a (l1 ++ l2)
    = match recorrer_clases a l1 with
      | Some a1 => recorrer_clases a1 l2
      | None => None
      end.
Proof.
  induction l1 as [| c l1 IH]; intros a; [reflexivity |]. cbn [app recorrer_clases].
  destruct (paso_clase a c); [apply IH | reflexivity].
Qed.

(** X16: [analizar_ontologia] raises, with the [AttributeError] of [.text]
    on [None], exactly when some element [class] below the root has no
    child [name] or no child [parent]. *)
Theorem analizar_ontologia_fails (root : Element) :
  analizar_ontologia root = None
  <-> exists clase,
      In clase (findall_descendientes root "class")
      /\ clase_completa clase = false.
Proof.
  unfold analizar_ontologia.
  set (a0 := {| total_classes := List.length (findall_descendientes root "class");
                jerarquia := []; relaciones := []; propiedades_por_clase := [] |}).
  clearbody a0. revert a0.
  induction (findall_descendientes root "class") as [| clase resto IH]; intros a.
  - split; [discriminate | intros (c & [] & _)].
  - cbn [recorrer_clases]. rewrite paso_clase_spec. unfold clase_completa.
    destruct (find clase "name") as [nombre |] eqn:Hn;
      [destruct (find clase "parent") as [padre |] eqn:Hp |].
    + rewrite IH. split.
      * intros (c & Hin & Hc). exists c. split; [now right | exact Hc].
      * intros (c & [<- | Hin] & Hc); [now rewrite Hn, Hp in Hc |].
        now exists c.
    + split; [| reflexivity]. intros _. exists clase.
      split; [now left | now rewrite Hn, Hp].
    + split; [| reflexivity]. intros _. exists clase.
      split; [now left | now rewrite Hn].
Qed.

Lemma recorrer_clases_inv (clases : list Element) :
  forall a a',
    recorrer_clases a clases = Some a' ->
    total_classes a' = total_classes a
    /\ (map fst (jerarquia a) = map fst (propiedades_por_clase a) ->
        map fst (jerarquia a') = map fst (propiedades_por_clase a'))
    /\ (List.length (jerarquia a') <= List.length (jerarquia a) + List.length clases)%nat
    /\ forall k,
        Forall (fun c => class_name_de c <> Some k) clases ->
        buscar (jerarquia a') k = buscar (jerarquia a) k
        /\ buscar (propiedades_por_clase a') k = buscar (propiedades_por_clase a) k.
Proof.
  induction clases as [| clase resto IH]; intros a a' H.
  - injection H as <-. repeat split; auto. simpl. lia.
  - cbn [recorrer_clases] in H. rewrite paso_clase_spec in H.
    destruct (find clase "name") as [nombre |] eqn:Hn; [| discriminate].
    destruct (find clase "parent") as [padre |] eqn:Hp; [| discriminate].
    destruct (IH _ _ H) as (Ht & Hk & Hl & Hb). cbn [total_classes jerarquia
      propiedades_por_clase] in *. repeat split.
    + exact Ht.
    + intros Heq. apply Hk. now apply poner_claves.
    + pose proof (poner_length (jerarquia a) (text nombre) (get clase "id", text padre)).
      cbn [List.length]. lia.
    + inversion H0 as [| ? ? Hc Hresto]; subst. destruct (Hb k Hresto) as [Hj _].
      rewrite Hj. apply buscar_poner_neq. intros Heq. apply Hc.
      unfold class_name_de. rewrite Hn. simpl. now rewrite Heq.
    + inversion H0 as [| ? ? Hc Hresto]; subst. destruct (Hb k Hresto) as [_ Hpr].
      rewrite Hpr. apply buscar_poner_neq. intros Heq. apply Hc.
      unfold class_name_de. rewrite Hn. simpl. now rewrite Heq.
Qed.

(** X17: when [analizar_ontologia] returns, [total_classes] is the number
    of elements [class] below the root; [jerarquia] and
    [propiedades_por_clase] have the same keys in the same order, at most
    one per class; and a name borne by several classes keeps only the data
    of the last of them: its [id], its [parent] and its number of
    properties. *)
Theorem analizar_ontologia_last_class_wins (root : Element) (a : analisis) :
  analizar_ontologia root = Some a ->
  total_classes a = List.length (findall_descendientes root "class")
  /\ map fst (jerarquia a) = map fst (propiedades_por_clase a)
  /\ (List.length (jerarquia a) <= total_classes a)%nat
  /\ forall antes clase despues nombre,
      findall_descendientes root "class" = (antes ++ clase :: despues)%list ->
      class_name_de clase = Some nombre ->
      Forall (fun c => class_name_de c <> Some nombre) despues ->
      exists padre,
        find clase "parent" = Some padre
        /\ buscar (jerarquia a) nombre = Some (get clase "id", text padre)
        /\ buscar (propiedades_por_clase a) nombre
           = Some (List.length (findall_descendientes clase "property")).
Proof.
  unfold analizar_ontologia. intros H.
  pose proof (recorrer_clases_inv _ _ _ H) as (Ht & Hk & Hl & _).
  cbn [total_classes jerarquia propiedades_por_clase List.length] in *.
  split; [exact Ht |]. split; [now apply Hk |]. split; [lia |].
  intros antes clase despues nombre Hs Hn Hd. rewrite Hs in H.
  rewrite recorrer_clases_app in H.
  destruct (recorrer_clases _ antes) as [a1 |]; [| discriminate].
  cbn [recorrer_clases] in H. rewrite paso_clase_spec in H.
  unfold class_name_de in Hn.
  destruct (find clase "name") as [n |]; [| discriminate].
  injection Hn as Hn.
  destruct (find clase "parent") as [padre |]; [| discriminate].
  exists padre. split; [reflexivity |].
  destruct (recorrer_clases_inv _ _ _ H) as (_ & _ & _ & Hb).
  destruct (Hb nombre Hd) as [Hj Hp].
  cbn [jerarquia propiedades_por_clase] in Hj, Hp.
  rewrite Hj, Hp, Hn. split; apply buscar_poner_eq.
Qed.

Lemma analizar_ontologia_last_class_wins_witness :
  (exists a, analizar_ontologia ontologia_ejemplo = Some a
             /\ total_classes a = 3%nat
             /\ List.length (jerarquia a) = 2%nat
             /\ buscar (jerarquia a) (Some "Enfermedad")
                = Some (Some "C3", Some "Proceso")).
Proof.
  eexists. split; [reflexivity |].
  destruct (analizar_ontologia_last_class_wins ontologia_ejemplo _ eq_refl)
    as (Ht & _ & _ & Hu).
  split; [exact Ht |]. split; [reflexivity |].
  destruct (Hu [clase_ejemplo "C1" "Enfermedad" "Thing"
                  [mkElement "property" [] (Some "cie10") [];
                   mkElement "relation" [("type", "causa"); ("target", "Sintoma")] None []];
                clase_ejemplo "C2" "Sintoma" "Thing" []]
               (clase_ejemplo "C3" "Enfermedad" "Proceso" []) [] (Some "Enfermedad")
               eq_refl eq_refl (Forall_nil _))
    as (padre & Hp & Hj & _).
  injection Hp as <-. exact Hj.
Defined.
